(** * Light Pilot: the modal transform-sync session and its view-state
      save/restore, embedded from [LightPilotforBlender.py].

    The add-on keeps three module globals ([is_piloting], [piloted_light],
    [previous_view_state]) and drives them from three operators:
    [LIGHTPILOT_OT_pilot_light_modal] ([invoke], [modal], [cleanup],
    [restore_view_state]), [LIGHTPILOT_OT_pilot_light] ([poll], [execute])
    and [LIGHTPILOT_OT_exit_pilot] ([poll], [execute]).

    The host ([bpy], [mathutils]) is not part of the add-on.  Its vector,
    quaternion and matrix arithmetic is taken as an interface
    ([Mathutils]); the scene, the viewport and the globals are explicit
    state that every operator method threads through. *)

From Stdlib Require Import QArith_base.
From stdpp Require Import base strings gmap list option.

Open Scope string_scope.

(** ** The host's [mathutils] interface

    Only the calls that the add-on makes.  Floats never take part in
    arithmetic inside the add-on: they are written as decimal literals and
    copied around, so a literal is injected from its decimal value. *)

Class Mathutils := {
  float : Type;
  Vector : Type;
  Quaternion : Type;
  Euler : Type;
  Matrix : Type;
  Matrix3 : Type;
  (* a float literal such as 0.001 *)
  float_lit : Q → float;
  (* mathutils.Vector((x, y, z)) *)
  mkVector : float → float → float → Vector;
  (* -v *)
  vec_neg : Vector → Vector;
  (* v.normalized(), and v.normalize() read back *)
  normalized : Vector → Vector;
  (* v.to_track_quat(track, up) *)
  to_track_quat : Vector → string → string → Quaternion;
  (* q @ v *)
  quat_apply : Quaternion → Vector → Vector;
  (* q.to_euler(order), for an order it accepts *)
  to_euler : Quaternion → string → Euler;
  (* e.to_quaternion() *)
  euler_to_quaternion : Euler → Quaternion;
  (* m.to_quaternion() *)
  matrix_to_quaternion : Matrix → Quaternion;
  (* m.inverted() *)
  inverted : Matrix → Matrix;
  (* m.translation *)
  translation : Matrix → Vector;
  (* m.to_3x3() *)
  to_3x3 : Matrix → Matrix3;
  (* m[i] on a 3x3 matrix *)
  row : Matrix3 → nat → Vector;
}.

Section LightPilot.
Context `{M : Mathutils}.

(** ** Scene and viewport data *)

(** A [bpy.types.Object] as the add-on reads and writes it.  [obj_type] is
    [obj.type], [data_type] is [obj.data.type]; [matrix_world] is
    maintained by the host and only read here.  The object's [name] is the
    key under which [bpy.data.objects] holds it. *)
Record Object := mkObject {
  obj_type : string;
  data_type : string;
  location : Vector;
  rotation_mode : string;
  rotation_quaternion : Quaternion;
  rotation_euler : Euler;
  matrix_world : Matrix;
}.

(** [context.region_data].  [view_matrix] is maintained by the host; the
    add-on never assigns it. *)
Record RegionView3D := mkRegionView3D {
  view_location : Vector;
  view_rotation : Quaternion;
  view_distance : float;
  view_perspective : string;
  view_matrix : Matrix;
}.

(** [context.space_data]; [camera] is an object reference or [None]. *)
Record SpaceView3D := mkSpaceView3D {
  use_local_camera : bool;
  camera : option string;
}.

(** An entry of [context.area.regions]. *)
Record Region := mkRegion {
  region_type : string;
  redraw_tagged : bool;
}.

(** The input event handed to [invoke] and [modal]. *)
Record Event := mkEvent {
  event_type : string;
  event_value : string;
}.

(** The dict [previous_view_state].  It is either empty or the literal
    built by [invoke]; each of the six keys is present ([Some]) or absent
    ([None]), and the value under ['camera'] may itself be [None]. *)
Record ViewStateDict := mkViewStateDict {
  d_view_location : option Vector;
  d_view_rotation : option Quaternion;
  d_view_distance : option float;
  d_view_perspective : option string;
  d_use_local_camera : option bool;
  d_camera : option (option string);
}.

(** [{}] and [d.clear()]. *)
Definition dict_empty : ViewStateDict :=
  mkViewStateDict None None None None None None.

(** Truth value of a dict: it has at least one key. *)
Definition dict_truthy (d : ViewStateDict) : bool :=
  bool_decide (is_Some (d_view_location d)) ||
  bool_decide (is_Some (d_view_rotation d)) ||
  bool_decide (is_Some (d_view_distance d)) ||
  bool_decide (is_Some (d_view_perspective d)) ||
  bool_decide (is_Some (d_use_local_camera d)) ||
  bool_decide (is_Some (d_camera d)).

(** The whole state the operators act on: the module globals,
    [bpy.data.objects], and the parts of [context] the add-on touches.

    Object references ([piloted_light], [camera], [context.object]) are
    names into [objects]: a reference whose name is not in [objects]
    stands for a reference to a deleted object.  A deleted object whose
    name has been given to a new one is not told apart from the new one,
    and objects are not renamed.

    [area_type] and [area_regions] are [context.area.type] and
    [context.area.regions]: the context has an area, as it has whenever
    the host hands an event of a window to a modal handler.

    [modal_handlers] lists the running modal operators by their
    [light_object] property.  [scene_camera] is [context.scene.camera],
    which the add-on never names, but which the host binds to the view
    when local-camera mode is switched off (see [set_use_local_camera])
    and sets from the view while the view is locked to it (see
    [set_camera]). *)
Record State := mkState {
  (* module globals *)
  is_piloting : bool;
  piloted_light : option string;
  previous_view_state : ViewStateDict;
  (* bpy.data.objects *)
  objects : gmap string Object;
  (* context *)
  area_type : string;
  area_regions : list Region;
  region_data : RegionView3D;
  space_data : SpaceView3D;
  scene : gmap string string;
  context_object : option string;
  modal_handlers : list string;
  scene_camera : option string;
}.

(** What an operator method hands back to the host: its return set, the
    notices passed to [self.report], and the state it leaves.  When the
    method ends in an exception, [ret] is the exception's name and [post]
    the state at the raise: what was written before it stays written. *)
Record Outcome := mkOutcome {
  ret : string;
  reports : list (string * string);
  post : State;
}.

(** *** Assignments *)

Definition set_is_piloting (b : bool) (s : State) : State :=
  mkState b (piloted_light s) (previous_view_state s) (objects s)
    (area_type s) (area_regions s) (region_data s) (space_data s)
    (scene s) (context_object s) (modal_handlers s) (scene_camera s).

Definition set_piloted_light (l : option string) (s : State) : State :=
  mkState (is_piloting s) l (previous_view_state s) (objects s)
    (area_type s) (area_regions s) (region_data s) (space_data s)
    (scene s) (context_object s) (modal_handlers s) (scene_camera s).

Definition set_previous_view_state (d : ViewStateDict) (s : State) : State :=
  mkState (is_piloting s) (piloted_light s) d (objects s)
    (area_type s) (area_regions s) (region_data s) (space_data s)
    (scene s) (context_object s) (modal_handlers s) (scene_camera s).

Definition set_objects (o : gmap string Object) (s : State) : State :=
  mkState (is_piloting s) (piloted_light s) (previous_view_state s) o
    (area_type s) (area_regions s) (region_data s) (space_data s)
    (scene s) (context_object s) (modal_handlers s) (scene_camera s).

Definition set_area_regions (r : list Region) (s : State) : State :=
  mkState (is_piloting s) (piloted_light s) (previous_view_state s)
    (objects s) (area_type s) r (region_data s) (space_data s)
    (scene s) (context_object s) (modal_handlers s) (scene_camera s).

Definition set_region_data (r : RegionView3D) (s : State) : State :=
  mkState (is_piloting s) (piloted_light s) (previous_view_state s)
    (objects s) (area_type s) (area_regions s) r (space_data s)
    (scene s) (context_object s) (modal_handlers s) (scene_camera s).

Definition set_space_data (sp : SpaceView3D) (s : State) : State :=
  mkState (is_piloting s) (piloted_light s) (previous_view_state s)
    (objects s) (area_type s) (area_regions s) (region_data s) sp
    (scene s) (context_object s) (modal_handlers s) (scene_camera s).

Definition set_scene (sc : gmap string string) (s : State) : State :=
  mkState (is_piloting s) (piloted_light s) (previous_view_state s)
    (objects s) (area_type s) (area_regions s) (region_data s)
    (space_data s) sc (context_object s) (modal_handlers s) (scene_camera s).

Definition set_modal_handlers (h : list string) (s : State) : State :=
  mkState (is_piloting s) (piloted_light s) (previous_view_state s)
    (objects s) (area_type s) (area_regions s) (region_data s)
    (space_data s) (scene s) (context_object s) h (scene_camera s).

Definition set_scene_camera (c : option string) (s : State) : State :=
  mkState (is_piloting s) (piloted_light s) (previous_view_state s)
    (objects s) (area_type s) (area_regions s) (region_data s)
    (space_data s) (scene s) (context_object s) (modal_handlers s) c.

(** [context.region_data.<field> = v] *)
Definition set_view_location (v : Vector) (s : State) : State :=
  let r := region_data s in
  set_region_data
    (mkRegionView3D v (view_rotation r) (view_distance r)
       (view_perspective r) (view_matrix r)) s.

Definition set_view_rotation (q : Quaternion) (s : State) : State :=
  let r := region_data s in
  set_region_data
    (mkRegionView3D (view_location r) q (view_distance r)
       (view_perspective r) (view_matrix r)) s.

Definition set_view_distance (f : float) (s : State) : State :=
  let r := region_data s in
  set_region_data
    (mkRegionView3D (view_location r) (view_rotation r) f
       (view_perspective r) (view_matrix r)) s.

Definition set_view_perspective (p : string) (s : State) : State :=
  let r := region_data s in
  set_region_data
    (mkRegionView3D (view_location r) (view_rotation r) (view_distance r)
       p (view_matrix r)) s.

(** [context.space_data.use_local_camera = b].  Switching local-camera
    mode off makes the host bind the view to the scene camera, so the
    assignment of [False] also sets [space_data.camera] to
    [scene.camera]; switching it on leaves the camera as it is. *)
Definition set_use_local_camera (b : bool) (s : State) : State :=
  if b then set_space_data (mkSpaceView3D true (camera (space_data s))) s
  else set_space_data (mkSpaceView3D false (scene_camera s)) s.

(** [context.space_data.camera = c].  While local-camera mode is off the
    view is locked to the scene camera, and the host carries a camera
    assigned to the view over to [scene.camera]. *)
Definition set_camera (c : option string) (s : State) : State :=
  let s :=
    set_space_data (mkSpaceView3D (use_local_camera (space_data s)) c) s in
  if use_local_camera (space_data s) then s else set_scene_camera c s.

(** [obj.<field> = v] on an object record *)
Definition with_location (v : Vector) (o : Object) : Object :=
  mkObject (obj_type o) (data_type o) v (rotation_mode o)
    (rotation_quaternion o) (rotation_euler o) (matrix_world o).

Definition with_rotation_quaternion (q : Quaternion) (o : Object) : Object :=
  mkObject (obj_type o) (data_type o) (location o) (rotation_mode o)
    q (rotation_euler o) (matrix_world o).

Definition with_rotation_euler (e : Euler) (o : Object) : Object :=
  mkObject (obj_type o) (data_type o) (location o) (rotation_mode o)
    (rotation_quaternion o) e (matrix_world o).

(** A write through the reference [light_obj]: the object held under
    [name] in [bpy.data.objects] becomes [o]. *)
Definition store_object (name : string) (o : Object) (s : State) : State :=
  set_objects (<[name := o]> (objects s)) s.

(** [light_obj.data.type in ['SUN', 'SPOT', 'AREA']] *)
Definition is_directional (o : Object) : bool :=
  bool_decide (data_type o ∈ ["SUN"; "SPOT"; "AREA"]).

(** [region.tag_redraw()] for every region of type ['UI'] *)
Definition tag_redraw (r : Region) : Region :=
  mkRegion (region_type r) true.

Definition redraw_ui_regions (s : State) : State :=
  set_area_regions
    (map (λ region,
       if bool_decide (region_type region = "UI") then tag_redraw region
       else region) (area_regions s)) s.

(** ** [LIGHTPILOT_OT_pilot_light_modal] *)

(** [restore_view_state(self, context)] *)
Definition restore_view_state (s : State) : State :=
  let d := previous_view_state s in
  if dict_truthy d then
    let s := match d_view_perspective d with
             | Some v => set_view_perspective v s | None => s end in
    let s := match d_use_local_camera d with
             | Some v => set_use_local_camera v s | None => s end in
    let s := match d_camera d with
             | Some (Some c) => set_camera (Some c) s | _ => s end in
    let s := match d_view_location d with
             | Some v => set_view_location v s | None => s end in
    let s := match d_view_rotation d with
             | Some v => set_view_rotation v s | None => s end in
    let s := match d_view_distance d with
             | Some v => set_view_distance v s | None => s end in
    set_previous_view_state dict_empty s
  else s.

(** [cleanup(self, context)] *)
Definition cleanup (s : State) : Outcome :=
  let s := set_is_piloting false s in
  let s := set_piloted_light None s in
  let s := restore_view_state s in
  let s := match scene s !! "lightpilot_active_light" with
           | Some _ => set_scene (delete "lightpilot_active_light" (scene s)) s
           | None => s
           end in
  mkOutcome "FINISHED" [("INFO", "Exited light pilot mode")] s.

(** The orders that [Quaternion.to_euler] accepts; any other string, such
    as the rotation mode ['AXIS_ANGLE'], makes it raise [ValueError]. *)
Definition euler_orders : list string :=
  ["XYZ"; "XZY"; "YXZ"; "YZX"; "ZXY"; "ZYX"].

(** [modal(self, context, event)]; [light_object] is [self.light_object].
    The rotation of a directional light is [None] when
    [quat.to_euler(light_obj.rotation_mode)] raises; the location has been
    written to the light by then. *)
Definition modal (light_object : string) (event : Event) (s : State)
  : Outcome :=
  if negb (is_piloting s) || bool_decide (area_type s ≠ "VIEW_3D") then
    cleanup s
  else
    match objects s !! light_object with
    | Some light_obj =>
        let view_matrix_ := view_matrix (region_data s) in
        let viewer_location := translation (inverted view_matrix_) in
        let light_obj := with_location viewer_location light_obj in
        let rotated : option Object :=
          if is_directional light_obj then
            let view_matrix_ := view_matrix (region_data s) in
            let forward := vec_neg (normalized (row (to_3x3 view_matrix_) 2)) in
            let quat := to_track_quat forward "-Z" "Y" in
            if bool_decide (rotation_mode light_obj = "QUATERNION") then
              Some (with_rotation_quaternion quat light_obj)
            else if bool_decide (rotation_mode light_obj ∈ euler_orders) then
              Some (with_rotation_euler
                      (to_euler quat (rotation_mode light_obj)) light_obj)
            else None
          else Some light_obj in
        match rotated with
        | Some light_obj =>
            let s := store_object light_object light_obj s in
            if bool_decide (event_type event = "ESC") &&
               bool_decide (event_value event = "PRESS") then
              cleanup s
            else
              let s := redraw_ui_regions s in
              mkOutcome "PASS_THROUGH" [] s
        | None =>
            mkOutcome "ValueError" [] (store_object light_object light_obj s)
        end
    | None => mkOutcome "PASS_THROUGH" [] s
    end.

(** The rotation modes in which [modal] can write the rotation of a
    directional light: [quat.to_euler] is not called or does not raise. *)
Definition rotation_mode_ok (o : Object) : Prop :=
  rotation_mode o = "QUATERNION" ∨ rotation_mode o ∈ euler_orders.

(** [invoke(self, context, event)].  The local [view_matrix] copied at
    line 143 is never used and has no counterpart here; the view distance
    is assigned twice, as in the source. *)
Definition invoke (light_object : string) (event : Event) (s : State)
  : Outcome :=
  match objects s !! light_object with
  | Some light_obj =>
      let s := set_previous_view_state
                 (mkViewStateDict
                    (Some (view_location (region_data s)))
                    (Some (view_rotation (region_data s)))
                    (Some (view_distance (region_data s)))
                    (Some (view_perspective (region_data s)))
                    (Some (use_local_camera (space_data s)))
                    (Some (camera (space_data s)))) s in
      let s := set_view_perspective "PERSP" s in
      let s := set_use_local_camera false s in
      let s := set_view_location (location light_obj) s in
      let s := set_view_distance (float_lit (1 # 1000)) s in
      let s :=
        if is_directional light_obj then
          let forward_vec :=
            quat_apply (matrix_to_quaternion (matrix_world light_obj))
              (mkVector (float_lit 0) (float_lit 0) (float_lit (-1))) in
          let forward_vec := normalized forward_vec in
          let quat := to_track_quat forward_vec "-Z" "Y" in
          set_view_rotation quat s
        else if bool_decide (rotation_mode light_obj = "QUATERNION") then
          set_view_rotation (rotation_quaternion light_obj) s
        else
          set_view_rotation
            (euler_to_quaternion (rotation_euler light_obj)) s in
      let s := set_view_distance (float_lit (1 # 1000)) s in
      let s := set_is_piloting true s in
      let s := set_piloted_light (Some light_object) s in
      let s := set_scene
                 (<["lightpilot_active_light" := light_object]> (scene s)) s in
      let s := set_modal_handlers (modal_handlers s ++ [light_object]) s in
      mkOutcome "RUNNING_MODAL"
        [("INFO", "Now piloting light: " ++ light_object)] s
  | None =>
      mkOutcome "CANCELLED" [("ERROR", "Could not find the specified light")] s
  end.

(** ** [LIGHTPILOT_OT_pilot_light] *)

(** [poll(cls, context)]: [context.object and context.object.type == 'LIGHT'] *)
Definition pilot_light_poll (s : State) : bool :=
  match context_object s ≫= (objects s !!.) with
  | Some o => bool_decide (obj_type o = "LIGHT")
  | None => false
  end.

(** [execute(self, context)]: launches the modal operator on
    [context.object.name] and returns [{'FINISHED'}].  With no active
    object the attribute access on [None] raises, which is [None] here. *)
Definition pilot_light_execute (event : Event) (s : State)
  : option Outcome :=
  name ← context_object s;
  let o := invoke name event s in
  Some (mkOutcome "FINISHED" (reports o) (post o)).

(** ** [LIGHTPILOT_OT_exit_pilot] *)

(** [poll(cls, context)] *)
Definition exit_pilot_poll (s : State) : bool := is_piloting s.

(** [execute(self, context)] *)
Definition exit_pilot_execute (s : State) : Outcome :=
  let s := set_is_piloting false s in
  mkOutcome "FINISHED" [] s.

(** ** The two user commands

    The host runs an operator only when its [poll] holds; a command whose
    [poll] fails is unavailable ([None]) and nothing is executed. *)
Definition pilot_light (event : Event) (s : State) : option Outcome :=
  if pilot_light_poll s then pilot_light_execute event s else None.

Definition exit_pilot (s : State) : option Outcome :=
  if exit_pilot_poll s then Some (exit_pilot_execute s) else None.

(** ** [LIGHTPILOT_PT_panel]

    Of [draw] only the choice of operator buttons: the exit button while
    [is_piloting and piloted_light], otherwise the pilot button when a
    light is selected.  These are the buttons of the layout when [draw]
    returns one; a [draw] that raises lays out nothing. *)
Definition draw_operators (s : State) : list string :=
  if is_piloting s && bool_decide (is_Some (piloted_light s)) then
    ["light.exit_pilot"]
  else if pilot_light_poll s then ["light.pilot"]
  else [].

(** ** [LIGHTPILOT_PT_panel.draw] in full

    The layout that [draw] builds, as the tree of its calls: [label],
    [prop] and [operator] are leaves, [box], [column] and [row] open a
    sub-layout.  An omitted [icon] is the host's default ['NONE']. *)
Inductive PropOwner :=
  | OwnerObject (name : string)      (* light_obj *)
  | OwnerLightData (name : string)   (* light_obj.data *)
  | OwnerScene.                      (* context.scene *)

#[global] Instance PropOwner_eq_dec : EqDecision PropOwner.
Proof. solve_decision. Defined.

#[local] Unset Elimination Schemes.
Inductive UILayout :=
  | UILabel (text icon : string)
  | UIProp (data : PropOwner) (property text : string)
  | UIOperator (idname icon : string)
  | UIBox (items : list UILayout)
  | UIColumn (align : bool) (items : list UILayout)
  | UIRow (items : list UILayout).
#[local] Set Elimination Schemes.

(** The fields of [light_obj.data] that only the panel reads
    ([light_data.type] is [data_type] of the object). *)
Record LightSettings := mkLightSettings {
  light_shape : string;
  light_use_shadow : bool;
}.

(** [draw(self, context)].  [lightpilot_show_coords] is
    [context.scene.lightpilot_show_coords], [light_data] holds the panel's
    fields of [piloted_light.data].  A [piloted_light] that is no longer
    in [bpy.data.objects] makes the attribute access raise ([None]); a
    reference to a deleted light also raises on the host when another
    object has taken the name since, which the names of [State] do not
    show. *)
Definition draw (lightpilot_show_coords : bool) (light_data : LightSettings)
    (s : State) : option (list UILayout) :=
  top ←
    (if is_piloting s && bool_decide (is_Some (piloted_light s)) then
       name ← piloted_light s;
       light_obj ← objects s !! name;
       let light := OwnerLightData name in
       Some
         [ UIBox
             (UILabel ("Piloting: " +:+ name) "OUTLINER_OB_LIGHT" ::
              if lightpilot_show_coords then
                [ UIBox
                    [ UIColumn true
                        (UILabel "Position:" "NONE" ::
                         UIProp (OwnerObject name) "location" "" ::
                         if is_directional light_obj then
                           [ UILabel "Direction:" "NONE";
                             if bool_decide
                                  (rotation_mode light_obj = "QUATERNION")
                             then UIProp (OwnerObject name)
                                    "rotation_quaternion" ""
                             else UIProp (OwnerObject name)
                                    "rotation_euler" "" ]
                         else []) ] ]
              else []);
           UIOperator "light.exit_pilot" "CANCEL";
           UIBox
             ([ UILabel "Light Settings:" "NONE";
                UIRow [UILabel ("Type: " +:+ data_type light_obj) "NONE"];
                UIProp light "energy" "Power";
                UIProp light "color" "Color" ] ++
              (if bool_decide (data_type light_obj = "POINT") then
                 [ UIProp light "shadow_soft_size" "Size" ]
               else if bool_decide (data_type light_obj = "SPOT") then
                 [ UIProp light "shadow_soft_size" "Size";
                   UIProp light "spot_size" "Spot Size";
                   UIProp light "spot_blend" "Spot Blend" ]
               else if bool_decide (data_type light_obj = "SUN") then
                 [ UIProp light "angle" "Angle" ]
               else if bool_decide (data_type light_obj = "AREA") then
                 UIProp light "shape" "Shape" ::
                 (if bool_decide
                       (light_shape light_data ∈ ["RECTANGLE"; "ELLIPSE"])
                  then [ UIProp light "size" "Size X";
                         UIProp light "size_y" "Size Y" ]
                  else [ UIProp light "size" "Size" ])
               else []) ++
              UIProp light "use_shadow" "Shadows" ::
              (if light_use_shadow light_data then
                 [ UIProp light "shadow_buffer_clip_start" "Clip Start";
                   UIProp light "shadow_buffer_clip_end" "Clip End" ]
               else []))%list ]
     else
       Some
         [ if pilot_light_poll s then
             UIOperator "light.pilot" "OUTLINER_OB_LIGHT"
           else UILabel "Select a light to pilot" "NONE" ]);
  Some
    (top ++
     [ UIBox
         [ UILabel "Settings:" "NONE";
           UIProp OwnerScene "lightpilot_show_coords" "Show Coordinates" ] ])%list.

(** The operator buttons of a layout, in drawing order. *)
Fixpoint layout_operators (l : UILayout) : list string :=
  match l with
  | UIOperator idname _ => [idname]
  | UIBox items | UIColumn _ items | UIRow items =>
      concat (map layout_operators items)
  | _ => []
  end.

(** The properties a layout shows, in drawing order. *)
Fixpoint layout_props (l : UILayout) : list (PropOwner * string) :=
  match l with
  | UIProp data property _ => [(data, property)]
  | UIBox items | UIColumn _ items | UIRow items =>
      concat (map layout_props items)
  | _ => []
  end.

(** ** Registration: [register_keymaps], [unregister_keymaps],
       [register], [unregister]

    The host side of registration, as far as these four functions use it.
    A keymap of a key configuration is found by its name and space type
    and holds its items in order; every item has an id that is unique in
    its keymap, which stands for the item's identity when [addon_keymaps]
    keeps a reference to it. *)
Record KeyMapItem := mkKeyMapItem {
  kmi_id : nat;
  kmi_idname : string;
  kmi_type : string;
  kmi_value : string;
  kmi_alt : bool;
  kmi_shift : bool;
}.

(** What registration acts on: [wm.keyconfigs.addon] ([None] when the host
    has none, as in background mode), the module global [addon_keymaps],
    the registered classes and the properties defined on
    [bpy.types.Scene] with their defaults. *)
Record Registry := mkRegistry {
  keyconfigs_addon : option (gmap (string * string) (list KeyMapItem));
  addon_keymaps : list ((string * string) * nat);
  registered_classes : list string;
  scene_properties : gmap string bool;
}.

(** [classes] *)
Definition classes : list string :=
  [ "LIGHTPILOT_OT_pilot_light_modal"; "LIGHTPILOT_OT_pilot_light";
    "LIGHTPILOT_OT_exit_pilot"; "LIGHTPILOT_PT_panel" ].

(** An id that no item of the keymap has. *)
Definition fresh_id (items : list KeyMapItem) : nat :=
  S (foldr Nat.max 0 (map kmi_id items)).

(** [km.keymap_items.new(idname, type, value, alt=.., shift=..)]: the new
    item goes to the end of the keymap. *)
Definition keymap_items_new (idname type value : string) (alt shift : bool)
    (items : list KeyMapItem) : KeyMapItem * list KeyMapItem :=
  let kmi := mkKeyMapItem (fresh_id items) idname type value alt shift in
  (kmi, items ++ [kmi])%list.

(** [km.keymap_items.remove(kmi)]: raises ([None]) when the item is not in
    the keymap. *)
Definition keymap_items_remove (id : nat) (items : list KeyMapItem)
  : option (list KeyMapItem) :=
  if bool_decide (id ∈ map kmi_id items) then
    Some (filter (λ kmi, kmi_id kmi ≠ id) items)
  else None.

(** [register_keymaps()].  [kc.keymaps.new] returns the keymap of that
    name and space type, creating it empty when there is none. *)
Definition register_keymaps (r : Registry) : Registry :=
  match keyconfigs_addon r with
  | Some kc =>
      let km := ("3D View", "VIEW_3D") in
      let items := default [] (kc !! km) in
      let '(kmi, items) :=
        keymap_items_new "light.pilot" "L" "PRESS" true false items in
      let addon_keymaps_ := (addon_keymaps r ++ [(km, kmi_id kmi)])%list in
      let '(kmi, items) :=
        keymap_items_new "light.exit_pilot" "L" "PRESS" true true items in
      let addon_keymaps_ := (addon_keymaps_ ++ [(km, kmi_id kmi)])%list in
      mkRegistry (Some (<[km := items]> kc)) addon_keymaps_
        (registered_classes r) (scene_properties r)
  | None => r
  end.

(** The loop of [unregister_keymaps()] over [addon_keymaps]. *)
Fixpoint remove_keymap_items (refs : list ((string * string) * nat))
    (kc : gmap (string * string) (list KeyMapItem))
  : option (gmap (string * string) (list KeyMapItem)) :=
  match refs with
  | [] => Some kc
  | (km, id) :: refs =>
      items ← kc !! km;
      items ← keymap_items_remove id items;
      remove_keymap_items refs (<[km := items]> kc)
  end.

(** [unregister_keymaps()].  The references in [addon_keymaps] were made
    from [wm.keyconfigs.addon]; without one the list is empty or the
    references are dead, and following a dead one raises. *)
Definition unregister_keymaps (r : Registry) : option Registry :=
  match addon_keymaps r, keyconfigs_addon r with
  | [], kc =>
      Some (mkRegistry kc [] (registered_classes r) (scene_properties r))
  | refs, Some kc =>
      kc ← remove_keymap_items refs kc;
      Some (mkRegistry (Some kc) [] (registered_classes r)
              (scene_properties r))
  | _ :: _, None => None
  end.

(** [bpy.utils.register_class(cls)] raises when the class is registered
    already, [bpy.utils.unregister_class(cls)] when it is not. *)
Definition register_class (cls : string) (registered : list string)
  : option (list string) :=
  if bool_decide (cls ∈ registered) then None
  else Some (registered ++ [cls])%list.

Definition unregister_class (cls : string) (registered : list string)
  : option (list string) :=
  if bool_decide (cls ∈ registered) then
    Some (filter (λ c, c ≠ cls) registered)
  else None.

(** [register()] *)
Definition register (r : Registry) : option Registry :=
  registered ← foldl (λ acc cls, acc ≫= register_class cls)
                  (Some (registered_classes r)) classes;
  let r := mkRegistry (keyconfigs_addon r) (addon_keymaps r) registered
             (<["lightpilot_show_coords" := true]> (scene_properties r)) in
  Some (register_keymaps r).

(** [unregister()]; [del] of a property that is not defined raises. *)
Definition unregister (r : Registry) (s : State)
  : option (Registry * State) :=
  r ← unregister_keymaps r;
  registered ← foldl (λ acc cls, acc ≫= unregister_class cls)
                  (Some (registered_classes r)) (reverse classes);
  _ ← scene_properties r !! "lightpilot_show_coords";
  let r := mkRegistry (keyconfigs_addon r) (addon_keymaps r) registered
             (delete "lightpilot_show_coords" (scene_properties r)) in
  let s := set_is_piloting false s in
  Some (r, s).

(** ** The session as a transition system

    How the host drives the add-on: the two commands, the modal operator
    called directly ([bpy.ops.light.pilot_modal]) or ticked by the event
    loop, and everything the host and the user do on their own (navigate,
    select, add or delete objects, change the area), which can change
    anything but the module globals and the add-on's scene property. *)
Inductive step : State → State → Prop :=
  | step_pilot_light e s out :
      pilot_light e s = Some out → step s (post out)
  | step_invoke L e s :
      step s (post (invoke L e s))
  | step_modal L e s :
      step s (post (modal L e s))
  | step_exit_pilot s out :
      exit_pilot s = Some out → step s (post out)
  | step_host s s' :
      is_piloting s' = is_piloting s →
      piloted_light s' = piloted_light s →
      previous_view_state s' = previous_view_state s →
      scene s' !! "lightpilot_active_light" =
        scene s !! "lightpilot_active_light" →
      step s s'.

(** All six keys of the snapshot dict are present. *)
Definition dict_full (d : ViewStateDict) : Prop :=
  is_Some (d_view_location d) ∧ is_Some (d_view_rotation d) ∧
  is_Some (d_view_distance d) ∧ is_Some (d_view_perspective d) ∧
  is_Some (d_use_local_camera d) ∧ is_Some (d_camera d).

(** What holds of the globals between any two calls: the snapshot is empty
    or complete, and while [is_piloting] is set there is a complete
    snapshot, a recorded target and the scene property. *)
Definition session_inv (s : State) : Prop :=
  (previous_view_state s = dict_empty ∨ dict_full (previous_view_state s)) ∧
  (is_piloting s = true →
     dict_full (previous_view_state s) ∧
     is_Some (piloted_light s) ∧
     is_Some (scene s !! "lightpilot_active_light")).

End LightPilot.

(** ** A symbolic host

    One instance of [Mathutils] in which every value is the expression of
    host calls that produced it.  It is used to run the operators on a
    concrete scene. *)

Inductive term :=
  | Num (q : Q)
  | Ref (name : string)
  | App (f x : term).

Definition call1 (f : string) (a : term) : term := App (Ref f) a.
Definition call2 (f : string) (a b : term) : term := App (call1 f a) b.
Definition call3 (f : string) (a b c : term) : term := App (call2 f a b) c.

Definition SymMath : Mathutils := {|
  float := term;
  Vector := term;
  Quaternion := term;
  Euler := term;
  Matrix := term;
  Matrix3 := term;
  float_lit := Num;
  mkVector := call3 "Vector";
  vec_neg := call1 "neg";
  normalized := call1 "normalized";
  to_track_quat := λ v track up, call3 "to_track_quat" v (Ref track) (Ref up);
  quat_apply := call2 "matmul";
  to_euler := λ q order, call2 "to_euler" q (Ref order);
  euler_to_quaternion := call1 "to_quaternion";
  matrix_to_quaternion := call1 "to_quaternion";
  inverted := call1 "inverted";
  translation := call1 "translation";
  to_3x3 := call1 "to_3x3";
  row := λ m i, call2 "row" m (Num (inject_Z (Z.of_nat i)));
|}.

(** In the symbolic host the forward axis of a view rotation that came from
    [to_track_quat(v, '-Z', 'Y')] is [v]; any other rotation keeps its
    expression. *)
Definition sym_view_forward (q : term) : term :=
  match q with
  | App (App (App (Ref "to_track_quat") v) (Ref "-Z")) (Ref "Y") => v
  | _ => call1 "view_forward" q
  end.

Module Scenario.
#[local] Existing Instance SymMath.

Definition vec (x y z : Q) : term := call3 "Vector" (Num x) (Num y) (Num z).

Definition sun : Object :=
  mkObject "LIGHT" "SUN" (vec 4 1 6) "XYZ"
    (Ref "sun.rotation_quaternion") (Ref "sun.rotation_euler")
    (Ref "sun.matrix_world").

Definition point : Object :=
  mkObject "LIGHT" "POINT" (vec 0 0 3) "QUATERNION"
    (Ref "point.rotation_quaternion") (Ref "point.rotation_euler")
    (Ref "point.matrix_world").

Definition cam : Object :=
  mkObject "CAMERA" "PERSP" (vec 7 (-7) 5) "XYZ"
    (Ref "cam.rotation_quaternion") (Ref "cam.rotation_euler")
    (Ref "cam.matrix_world").

(** An idle session in a 3D viewport showing an orthographic view, with the
    light "Sun" selected. *)
Definition idle : State :=
  mkState false None dict_empty
    (<["Sun" := sun]> (<["Point" := point]> (<["Camera" := cam]> ∅)))
    "VIEW_3D" [mkRegion "WINDOW" false; mkRegion "UI" false]
    (mkRegionView3D (vec 1 2 3) (Ref "view_rotation0") (Num 10) "ORTHO"
       (Ref "view_matrix0"))
    (mkSpaceView3D true (Some "Camera"))
    ∅ (Some "Sun") [] (Some "Camera").

Definition mouse_move : Event := mkEvent "MOUSEMOVE" "NOTHING".
Definition alt_l : Event := mkEvent "L" "PRESS".
Definition esc_press : Event := mkEvent "ESC" "PRESS".

(** The session on "Sun" once started from [idle]. *)
Definition piloting_sun : State := post (invoke "Sun" alt_l idle).

(** The user selects another object. *)
Definition select (name : string) (s : State) : State :=
  mkState (is_piloting s) (piloted_light s) (previous_view_state s)
    (objects s) (area_type s) (area_regions s) (region_data s)
    (space_data s) (scene s) (Some name) (modal_handlers s) (scene_camera s).



(** A spot light whose rotation is kept as axis and angle. *)
Definition spot_axis_angle : Object :=
  mkObject "LIGHT" "SPOT" (vec 2 2 2) "AXIS_ANGLE"
    (Ref "spot.rotation_quaternion") (Ref "spot.rotation_euler")
    (Ref "spot.matrix_world").

(** The user adds an object to the scene. *)
Definition add_object (name : string) (o : Object) (s : State) : State :=
  set_objects (<[name := o]> (objects s)) s.

(** The user deletes an object from the scene. *)
Definition remove_object (name : string) (s : State) : State :=
  set_objects (delete name (objects s)) s.

(** The panel's fields of the Sun's light data. *)
Definition sun_settings : LightSettings := mkLightSettings "SQUARE" true.

(** A host with an add-on key configuration whose 3D View keymap already
    holds one item of another add-on, and with nothing of this add-on
    registered. *)
Definition registry0 : Registry :=
  mkRegistry
    (Some (<[("3D View", "VIEW_3D") :=
               [mkKeyMapItem 7 "view3d.other_tool" "L" "PRESS" false false]]>
             (<[("Window", "EMPTY") := []]> ∅)))
    [] ["OTHER_OT_tool"] (<["other_flag" := false]> ∅).

(** The viewport after the user has navigated. *)
Definition navigated (n : string) : RegionView3D :=
  mkRegionView3D (Ref (n +:+ ".view_location")) (Ref (n +:+ ".view_rotation"))
    (Num (1 # 1000)) "PERSP" (Ref (n +:+ ".view_matrix")).

End Scenario.

(** * Properties *)

(** Closed goals are settled by running the operators; [conj] splits a
    conjunction without trying to close its equations by unification. *)
Ltac run := vm_compute; first [reflexivity | discriminate | by eexists].
Ltac conj := repeat match goal with |- _ ∧ _ => split end.

Section Properties.
Context `{M : Mathutils}.

Implicit Types (s : State) (d : ViewStateDict) (o : Object) (e : Event).

(** ** What [restore_view_state] and [cleanup] compute *)

(** [restore_view_state] in closed form: with a non-empty snapshot every
    captured field overwrites its viewport field and the snapshot is
    cleared; with an empty one nothing happens.  The camera ends as the
    captured camera when that is not [None]; otherwise it is the scene
    camera when the local-camera flag was restored to [False], and the
    current camera in any other case.  A captured camera assigned while
    the flag is [False] becomes the scene camera as well. *)
Lemma restore_view_state_eq s :
  restore_view_state s =
  let d := previous_view_state s in
  if dict_truthy d then
    mkState (is_piloting s) (piloted_light s) dict_empty (objects s)
      (area_type s) (area_regions s)
      (mkRegionView3D
         (default (view_location (region_data s)) (d_view_location d))
         (default (view_rotation (region_data s)) (d_view_rotation d))
         (default (view_distance (region_data s)) (d_view_distance d))
         (default (view_perspective (region_data s)) (d_view_perspective d))
         (view_matrix (region_data s)))
      (mkSpaceView3D
         (default (use_local_camera (space_data s)) (d_use_local_camera d))
         (match d_camera d with
          | Some (Some c) => Some c
          | _ => match d_use_local_camera d with
                 | Some false => scene_camera s
                 | _ => camera (space_data s)
                 end
          end))
      (scene s) (context_object s) (modal_handlers s)
      (match d_camera d with
       | Some (Some c) =>
           if default (use_local_camera (space_data s)) (d_use_local_camera d)
           then scene_camera s else Some c
       | _ => scene_camera s
       end)
  else s.
Proof.
  destruct s as [ip pl d objs at_ ar [vl vr vd vp vm] [ulc c] sc co mh scam].
  unfold restore_view_state; cbn [previous_view_state].
  destruct (dict_truthy d); [|reflexivity].
  destruct d as [[?|] [?|] [?|] [?|] [[|]|] [[?|]|]]; destruct ulc;
    reflexivity.
Qed.

Lemma dict_truthy_false d : dict_truthy d = false → d = dict_empty.
Proof.
  destruct d as [[?|] [?|] [?|] [?|] [?|] [?|]]; cbn; intros H;
    try discriminate H; reflexivity.
Qed.

(** [cleanup] in closed form. *)
Lemma cleanup_post s :
  post (cleanup s) =
  mkState false None dict_empty (objects s) (area_type s) (area_regions s)
    (region_data (restore_view_state s))
    (space_data (restore_view_state s))
    (delete "lightpilot_active_light" (scene s))
    (context_object s) (modal_handlers s)
    (scene_camera (restore_view_state s)).
Proof.
  unfold cleanup; cbn [post].
  rewrite !restore_view_state_eq.
  cbn [previous_view_state set_piloted_light set_is_piloting is_piloting
       piloted_light objects area_type area_regions region_data space_data
       scene context_object modal_handlers scene_camera].
  destruct (dict_truthy (previous_view_state s)) eqn:Ht;
    cbn [scene set_scene set_piloted_light set_is_piloting is_piloting
       piloted_light objects area_type area_regions region_data space_data
       previous_view_state context_object modal_handlers scene_camera].
  - destruct (scene s !! "lightpilot_active_light") eqn:Hs;
      [reflexivity|]. by rewrite delete_id.
  - apply dict_truthy_false in Ht.
    destruct (scene s !! "lightpilot_active_light") eqn:Hs;
      unfold set_scene, set_piloted_light, set_is_piloting;
      cbn [scene set_scene set_piloted_light set_is_piloting is_piloting
       piloted_light objects area_type area_regions region_data space_data
       previous_view_state context_object modal_handlers scene_camera];
      rewrite Ht; [reflexivity|]. by rewrite delete_id.
Qed.

(** After [cleanup] the session is idle: flag down, no target, no
    snapshot, no UI property. *)
Lemma cleanup_idle s :
  is_piloting (post (cleanup s)) = false ∧
  piloted_light (post (cleanup s)) = None ∧
  previous_view_state (post (cleanup s)) = dict_empty ∧
  scene (post (cleanup s)) !! "lightpilot_active_light" = None.
Proof.
  rewrite cleanup_post; cbn [is_piloting piloted_light previous_view_state scene].
  by rewrite lookup_delete_eq.
Qed.

(** On an idle session [cleanup] changes nothing. *)
Lemma cleanup_fixed s :
  is_piloting s = false →
  piloted_light s = None →
  previous_view_state s = dict_empty →
  scene s !! "lightpilot_active_light" = None →
  post (cleanup s) = s.
Proof.
  intros Hp Hl Hd Hs. rewrite cleanup_post, restore_view_state_eq, Hd.
  cbn [dict_truthy dict_empty d_view_location]. 
  rewrite (delete_id _ _ Hs).
  destruct s; cbn in *; by subst.
Qed.

Lemma cleanup_outcome s :
  cleanup s =
  mkOutcome "FINISHED" [("INFO", "Exited light pilot mode")]
    (post (cleanup s)).
Proof. reflexivity. Qed.


(** ** What [invoke] computes *)

(** [invoke] on a name that is in [bpy.data.objects], in closed form. *)
Lemma invoke_found (L : string) e s light_obj :
  objects s !! L = Some light_obj →
  invoke L e s =
  mkOutcome "RUNNING_MODAL" [("INFO", "Now piloting light: " ++ L)]
    (mkState true (Some L)
       (mkViewStateDict
          (Some (view_location (region_data s)))
          (Some (view_rotation (region_data s)))
          (Some (view_distance (region_data s)))
          (Some (view_perspective (region_data s)))
          (Some (use_local_camera (space_data s)))
          (Some (camera (space_data s))))
       (objects s) (area_type s) (area_regions s)
       (mkRegionView3D (location light_obj)
          (if is_directional light_obj then
             to_track_quat
               (normalized
                  (quat_apply (matrix_to_quaternion (matrix_world light_obj))
                     (mkVector (float_lit 0) (float_lit 0) (float_lit (-1)))))
               "-Z" "Y"
           else if bool_decide (rotation_mode light_obj = "QUATERNION") then
             rotation_quaternion light_obj
           else euler_to_quaternion (rotation_euler light_obj))
          (float_lit (1 # 1000)) "PERSP" (view_matrix (region_data s)))
       (mkSpaceView3D false (scene_camera s))
       (<["lightpilot_active_light" := L]> (scene s))
       (context_object s) (modal_handlers s ++ [L]) (scene_camera s)).
Proof.
  intros Hl. unfold invoke. rewrite Hl.
  destruct (is_directional light_obj);
    [|destruct (bool_decide (rotation_mode light_obj = "QUATERNION"))];
    reflexivity.
Qed.

(** The pilot command runs [invoke] on the selected light whenever that
    object is a light; [is_piloting] plays no part in it. *)
Lemma pilot_light_runs_invoke (name : string) e s o :
  context_object s = Some name →
  objects s !! name = Some o →
  obj_type o = "LIGHT" →
  pilot_light e s =
  Some (mkOutcome "FINISHED" (reports (invoke name e s))
          (post (invoke name e s))).
Proof.
  intros Hc Ho Ht. unfold pilot_light, pilot_light_poll, pilot_light_execute.
  rewrite Hc. cbn [mbind option_bind]. rewrite Ho.
  by rewrite (bool_decide_eq_true_2 _ Ht).
Qed.

(** ** The claims about Start and Stop *)

(** C4.  [cleanup] (Stop) is idempotent: it is a total function, so a
    second call in a row returns normally, with the usual completion
    notice, and leaves the whole state, hence the active flag, the target
    reference, the saved snapshot, the viewport fields and the UI property,
    exactly as the first call left it. *)
Theorem cleanup_idempotent s :
  cleanup (post (cleanup s)) =
  mkOutcome "FINISHED" [("INFO", "Exited light pilot mode")]
    (post (cleanup s)).
Proof.
  destruct (cleanup_idle s) as (Hp & Hl & Hd & Hs).
  rewrite (cleanup_outcome (post (cleanup s))).
  f_equal. exact (cleanup_fixed _ Hp Hl Hd Hs).
Qed.

(** C10.  [invoke] (Start) on a name that is not in [bpy.data.objects]
    reports the error notice, returns [{'CANCELLED'}] and hands back the
    state it was given: no snapshot is taken, the flag and the target are
    as before, viewport and scene are untouched. *)
Theorem invoke_missing_light (L : string) e s :
  objects s !! L = None →
  invoke L e s =
  mkOutcome "CANCELLED" [("ERROR", "Could not find the specified light")] s.
Proof. intros H. unfold invoke. by rewrite H. Qed.


(** C8.  The Exit command is available while a session is active; it
    lowers [is_piloting] and changes nothing else (viewport, snapshot,
    target and UI property are as before).  The next [modal] call, for any
    event, sees the lowered flag and does the cleanup: it returns what
    [cleanup] returns, which leaves the session idle. *)
Theorem exit_then_tick (light_object : string) e s :
  is_piloting s = true →
  ∃ exited,
    exit_pilot s = Some (mkOutcome "FINISHED" [] exited) ∧
    exited = set_is_piloting false s ∧
    region_data exited = region_data s ∧
    space_data exited = space_data s ∧
    previous_view_state exited = previous_view_state s ∧
    piloted_light exited = piloted_light s ∧
    scene exited = scene s ∧
    modal light_object e exited = cleanup exited ∧
    ret (modal light_object e exited) = "FINISHED" ∧
    reports (modal light_object e exited) =
      [("INFO", "Exited light pilot mode")] ∧
    previous_view_state (post (modal light_object e exited)) = dict_empty ∧
    piloted_light (post (modal light_object e exited)) = None.
Proof.
  intros Hact. exists (set_is_piloting false s).
  unfold exit_pilot, exit_pilot_poll, exit_pilot_execute. rewrite Hact.
  assert (Hm : modal light_object e (set_is_piloting false s) =
               cleanup (set_is_piloting false s)) by reflexivity.
  rewrite Hm.
  destruct (cleanup_idle (set_is_piloting false s)) as (_ & Hl & Hd & _).
  repeat split; done.
Qed.

(** ** What [modal] computes *)

(** The exit check at the top of [modal]. *)
Lemma modal_stops (L : string) e s :
  is_piloting s = false ∨ area_type s ≠ "VIEW_3D" →
  modal L e s = cleanup s.
Proof.
  intros [H|H]; unfold modal.
  - by rewrite H.
  - by rewrite (bool_decide_eq_true_2 _ H), orb_true_r.
Qed.

(** Past the exit check, a [light_object] that is not in
    [bpy.data.objects] sends [modal] straight to its last line. *)
Lemma modal_missing_light (L : string) e s :
  is_piloting s = true →
  area_type s = "VIEW_3D" →
  objects s !! L = None →
  modal L e s = mkOutcome "PASS_THROUGH" [] s.
Proof.
  intros Hp Ha Hl. unfold modal.
  rewrite Hp, Hl, bool_decide_eq_false_2; [reflexivity|].
  intros Hne. by apply Hne.
Qed.

(** Past the exit check, with the light present, [modal] in closed form:
    the location is written first; then the rotation of a directional
    light, which raises in a mode that is neither ['QUATERNION'] nor an
    Euler order; then the escape test and the redraw. *)
Lemma modal_found (L : string) e s o :
  is_piloting s = true →
  area_type s = "VIEW_3D" →
  objects s !! L = Some o →
  let located :=
    with_location (translation (inverted (view_matrix (region_data s)))) o in
  let quat :=
    to_track_quat
      (vec_neg (normalized (row (to_3x3 (view_matrix (region_data s))) 2)))
      "-Z" "Y" in
  modal L e s =
  match
    (if is_directional o then
       if bool_decide (rotation_mode o = "QUATERNION") then
         Some (with_rotation_quaternion quat located)
       else if bool_decide (rotation_mode o ∈ euler_orders) then
         Some (with_rotation_euler (to_euler quat (rotation_mode o)) located)
       else None
     else Some located)
  with
  | Some o' =>
      if bool_decide (event_type e = "ESC") &&
         bool_decide (event_value e = "PRESS")
      then cleanup (store_object L o' s)
      else mkOutcome "PASS_THROUGH" [] (redraw_ui_regions (store_object L o' s))
  | None => mkOutcome "ValueError" [] (store_object L located s)
  end.
Proof.
  intros Hp Ha Hl. unfold modal.
  rewrite Hp, Hl, bool_decide_eq_false_2 by (intros Hne; by apply Hne).
  reflexivity.
Qed.

(** Past the exit check, with the light present: the only object written
    is the light; its location becomes the viewer location, and a light
    that is not directional keeps both rotation fields. *)
Lemma modal_sync (L : string) e s o :
  is_piloting s = true →
  area_type s = "VIEW_3D" →
  objects s !! L = Some o →
  ∃ o',
    objects (post (modal L e s)) = <[L := o']> (objects s) ∧
    location o' = translation (inverted (view_matrix (region_data s))) ∧
    obj_type o' = obj_type o ∧
    data_type o' = data_type o ∧
    rotation_mode o' = rotation_mode o ∧
    matrix_world o' = matrix_world o ∧
    (is_directional o = false →
       rotation_quaternion o' = rotation_quaternion o ∧
       rotation_euler o' = rotation_euler o).
Proof.
  intros Hp Ha Hl. rewrite (modal_found L e s o Hp Ha Hl).
  destruct (is_directional o);
    [destruct (bool_decide (rotation_mode o = "QUATERNION"));
     [|destruct (bool_decide (rotation_mode o ∈ euler_orders))]|];
    try destruct (bool_decide (event_type e = "ESC") &&
                  bool_decide (event_value e = "PRESS"));
    try rewrite cleanup_post;
    (eexists; split; [reflexivity|]);
    cbn; repeat split; intros; done.
Qed.

(** With the light present and its rotation writable, an escape key press
    ends in [cleanup]. *)
Lemma modal_escape (L : string) s o :
  is_piloting s = true →
  area_type s = "VIEW_3D" →
  objects s !! L = Some o →
  (is_directional o = true → rotation_mode_ok o) →
  ret (modal L (mkEvent "ESC" "PRESS") s) = "FINISHED" ∧
  reports (modal L (mkEvent "ESC" "PRESS") s) =
    [("INFO", "Exited light pilot mode")] ∧
  is_piloting (post (modal L (mkEvent "ESC" "PRESS") s)) = false ∧
  previous_view_state (post (modal L (mkEvent "ESC" "PRESS") s)) =
    dict_empty.
Proof.
  intros Hp Ha Hl Hok. rewrite (modal_found L _ s o Hp Ha Hl).
  cbn [event_type event_value].
  assert (Hesc : bool_decide ("ESC" = "ESC") &&
                 bool_decide ("PRESS" = "PRESS") = true) by reflexivity.
  rewrite Hesc. clear Hesc.
  destruct (is_directional o).
  - destruct (Hok eq_refl) as [Hq|He].
    + rewrite (bool_decide_eq_true_2 _ Hq), cleanup_post. done.
    + destruct (bool_decide (rotation_mode o = "QUATERNION"));
        [|rewrite (bool_decide_eq_true_2 _ He)]; rewrite cleanup_post; done.
  - rewrite cleanup_post. done.
Qed.

(** No [modal] path writes an object other than the light. *)
Lemma modal_other_objects (L n : string) e s :
  n ≠ L → objects (post (modal L e s)) !! n = objects s !! n.
Proof.
  intros Hn.
  destruct (is_piloting s) eqn:Hp;
    [|by rewrite modal_stops, cleanup_post by by left].
  destruct (decide (area_type s = "VIEW_3D")) as [Ha|Ha];
    [|by rewrite modal_stops, cleanup_post by by right].
  destruct (objects s !! L) as [o|] eqn:Hl;
    [|by rewrite (modal_missing_light L e s Hp Ha Hl)].
  destruct (modal_sync L e s o Hp Ha Hl) as (o' & -> & _).
  by rewrite lookup_insert_ne.
Qed.

(** ** The claims about Tick *)

(** C7.  A Tick never touches the rotation of a light that is not
    directional.  For any object [o] of the scene whose [data.type] is not
    one of SUN, SPOT, AREA (a point light), whatever the session state and
    the event, after [modal] the object is still there, both
    [rotation_quaternion] and [rotation_euler] are as before, and the
    object differs from [o] in its location at most; when the session is
    active in a 3D viewport and [o] is the piloted light, that location is
    the viewer location. *)
Theorem modal_point_light_rotation (L n : string) e s o :
  objects s !! n = Some o →
  data_type o ∉ ["SUN"; "SPOT"; "AREA"] →
  ∃ o',
    objects (post (modal L e s)) !! n = Some o' ∧
    rotation_quaternion o' = rotation_quaternion o ∧
    rotation_euler o' = rotation_euler o ∧
    o' = with_location (location o') o ∧
    (is_piloting s = true → area_type s = "VIEW_3D" → n = L →
     location o' = translation (inverted (view_matrix (region_data s)))).
Proof.
  intros Hn Hpt.
  assert (Hsame : o = with_location (location o) o) by by destruct o.
  destruct (decide (n = L)) as [->|Hne].
  2: { exists o. rewrite (modal_other_objects _ _ _ _ Hne). done. }
  destruct (is_piloting s) eqn:Hp.
  2: { exists o. rewrite modal_stops, cleanup_post by by left. done. }
  destruct (decide (area_type s = "VIEW_3D")) as [Ha|Ha].
  2: { exists o. rewrite modal_stops, cleanup_post by by right. done. }
  destruct (modal_sync L e s o Hp Ha Hn)
    as (o' & Hobj & Hloc & Hty & Hdt & Hrm & Hmw & Hrot).
  destruct Hrot as [Hq He]; [by apply bool_decide_eq_false_2|].
  exists o'. rewrite Hobj, lookup_insert_eq.
  repeat split; try done.
  destruct o, o'; cbn in *; by subst.
Qed.

(** C6.  After Start on an existing light the view pivot is the light's
    location, the projection is perspective, local-camera mode is off and
    the view distance is the literal 0.001 (and the session is marked
    active on that light).  When the first Tick then arrives in the 3D
    viewport, whatever the viewport's region data [r] have become by then
    and whatever the event, the light's location after the Tick is the
    translation of the inverted view matrix. *)
Theorem start_then_tick (L : string) e s o :
  objects s !! L = Some o →
  let started := post (invoke L e s) in
  view_location (region_data started) = location o ∧
  view_perspective (region_data started) = "PERSP" ∧
  use_local_camera (space_data started) = false ∧
  view_distance (region_data started) = float_lit (1 # 1000) ∧
  is_piloting started = true ∧
  piloted_light started = Some L ∧
  scene started !! "lightpilot_active_light" = Some L ∧
  ∀ (r : RegionView3D) e',
    area_type s = "VIEW_3D" →
    ∃ o',
      objects (post (modal L e' (set_region_data r started))) !! L =
        Some o' ∧
      location o' = translation (inverted (view_matrix r)).
Proof.
  intros Hl started. unfold started. rewrite (invoke_found _ _ _ _ Hl).
  cbn [post region_data space_data view_location view_perspective
       use_local_camera view_distance is_piloting piloted_light scene].
  rewrite lookup_insert_eq. repeat split; try reflexivity.
  intros r e' Ha.
  match goal with
  | |- context [modal L e' ?x] => set (ticked := x)
  end.
  destruct (modal_sync L e' ticked o) as (o' & Hobj & Hloc & _);
    [reflexivity|exact Ha|exact Hl|].
  exists o'. rewrite Hobj, lookup_insert_eq. done.
Qed.

(** ** The claim about the view rotation chosen by Start *)

Section ViewForward.

(** The host derives the view's forward axis from the view rotation, and
    [to_track_quat(v, '-Z', 'Y')] is its way of building the rotation whose
    -Z axis points along a unit vector with +Y up.  [view_forward] stands
    for the former, [close] for equality within the host's floating
    tolerance, and [track_forward] is that contract. *)
Variable view_forward : Quaternion → Vector.
Variable close : Vector → Vector → Prop.
Hypothesis track_forward :
  ∀ v, close (view_forward (to_track_quat (normalized v) "-Z" "Y"))
             (normalized v).

(** C5.  After Start on a light whose [data.type] is SUN, SPOT or AREA the
    view rotation is [to_track_quat('-Z', 'Y')] of
    [forward = normalize(matrix_world.to_quaternion() @ (0, 0, -1))], that
    is, the rotation aligning the view's forward axis to [forward] with +Y
    up; hence, by the host's contract for tracking rotations, the view's
    forward axis is [forward] within tolerance. *)
Theorem start_view_rotation (L : string) e s o :
  objects s !! L = Some o →
  data_type o ∈ ["SUN"; "SPOT"; "AREA"] →
  let forward :=
    normalized
      (quat_apply (matrix_to_quaternion (matrix_world o))
         (mkVector (float_lit 0) (float_lit 0) (float_lit (-1)))) in
  let started := post (invoke L e s) in
  view_rotation (region_data started) = to_track_quat forward "-Z" "Y" ∧
  close (view_forward (view_rotation (region_data started))) forward.
Proof.
  intros Hl Hdir forward started.
  assert (Hrot : view_rotation (region_data started) =
                 to_track_quat forward "-Z" "Y").
  { unfold started. rewrite (invoke_found _ _ _ _ Hl).
    cbn [post region_data view_rotation]. unfold is_directional.
    by rewrite (bool_decide_eq_true_2 _ Hdir). }
  split; [exact Hrot|]. rewrite Hrot. apply track_forward.
Qed.

End ViewForward.

(** * Further properties of the add-on *)

Section Further.
#[local] Open Scope list_scope.

(** ** Start *)

(** X1.  Start on a light that is not directional takes the view rotation
    from the light itself: its [rotation_quaternion] when the rotation
    mode is ['QUATERNION'], otherwise [rotation_euler.to_quaternion()]. *)
Theorem invoke_point_light_rotation (L : string) e s o :
  objects s !! L = Some o →
  data_type o ∉ ["SUN"; "SPOT"; "AREA"] →
  let started := post (invoke L e s) in
  (rotation_mode o = "QUATERNION" →
     view_rotation (region_data started) = rotation_quaternion o) ∧
  (rotation_mode o ≠ "QUATERNION" →
     view_rotation (region_data started) =
       euler_to_quaternion (rotation_euler o)).
Proof.
  intros Hl Hpt started. unfold started.
  rewrite (invoke_found _ _ _ _ Hl).
  cbn [post region_data view_rotation]. unfold is_directional.
  rewrite (bool_decide_eq_false_2 _ Hpt).
  split; intros Hm.
  - by rewrite (bool_decide_eq_true_2 _ Hm).
  - by rewrite (bool_decide_eq_false_2 _ Hm).
Qed.

(** X2.  Whether it finds the light or not, [invoke] leaves
    [bpy.data.objects], the area and its regions, the view matrix, the
    scene camera and the selection alone, and of the scene's custom
    properties it writes no key but ["lightpilot_active_light"].  The
    camera bound to the view is left alone when the light is not found;
    when it is found the view ends bound to the scene camera, which is
    what the assignment [use_local_camera = False] does on the host. *)
Theorem invoke_frame (L : string) e s :
  let started := post (invoke L e s) in
  objects started = objects s ∧
  area_type started = area_type s ∧
  area_regions started = area_regions s ∧
  view_matrix (region_data started) = view_matrix (region_data s) ∧
  camera (space_data started) =
    (if bool_decide (is_Some (objects s !! L)) then scene_camera s
     else camera (space_data s)) ∧
  scene_camera started = scene_camera s ∧
  context_object started = context_object s ∧
  ∀ k, k ≠ "lightpilot_active_light" → scene started !! k = scene s !! k.
Proof.
  intros started. unfold started.
  destruct (objects s !! L) as [o|] eqn:Hl.
  - rewrite (invoke_found _ _ _ _ Hl).
    rewrite (bool_decide_eq_true_2 (is_Some (Some o))) by (by eexists). cbn.
    conj; try reflexivity. intros k Hk. by rewrite lookup_insert_ne.
  - unfold invoke. rewrite Hl, bool_decide_eq_false_2 by (by intros [? ?]).
    cbn [post]. conj; done.
Qed.

(** ** Tick *)

(** X3.  A Tick of an active session in a 3D viewport on a SUN, SPOT or
    AREA light writes the viewer location, and then the tracking rotation
    of the view's forward axis, [-view_matrix.to_3x3()[2].normalized()],
    into the field that the light's rotation mode selects:
    [rotation_quaternion] in mode ['QUATERNION'], [rotation_euler]
    converted with the mode as Euler order when the mode is one of the six
    Euler orders; the other rotation field and the mode stay.  In any
    other mode (['AXIS_ANGLE']) the conversion raises [ValueError]: the
    call ends there, with the location written and both rotation fields
    as they were. *)
Theorem modal_directional_rotation (L : string) e s o :
  is_piloting s = true →
  area_type s = "VIEW_3D" →
  objects s !! L = Some o →
  data_type o ∈ ["SUN"; "SPOT"; "AREA"] →
  let quat :=
    to_track_quat
      (vec_neg (normalized (row (to_3x3 (view_matrix (region_data s))) 2)))
      "-Z" "Y" in
  ∃ o',
    objects (post (modal L e s)) !! L = Some o' ∧
    location o' = translation (inverted (view_matrix (region_data s))) ∧
    rotation_mode o' = rotation_mode o ∧
    (rotation_mode o = "QUATERNION" →
       rotation_quaternion o' = quat ∧
       rotation_euler o' = rotation_euler o ∧
       ret (modal L e s) ≠ "ValueError") ∧
    (rotation_mode o ∈ euler_orders →
       rotation_euler o' = to_euler quat (rotation_mode o) ∧
       rotation_quaternion o' = rotation_quaternion o ∧
       ret (modal L e s) ≠ "ValueError") ∧
    (¬ rotation_mode_ok o →
       ret (modal L e s) = "ValueError" ∧
       reports (modal L e s) = [] ∧
       rotation_quaternion o' = rotation_quaternion o ∧
       rotation_euler o' = rotation_euler o ∧
       is_piloting (post (modal L e s)) = true ∧
       area_regions (post (modal L e s)) = area_regions s).
Proof.
  intros Hp Ha Hl Hdir quat. rewrite (modal_found L e s o Hp Ha Hl).
  fold quat. unfold is_directional. rewrite (bool_decide_eq_true_2 _ Hdir).
  assert (Hne : "QUATERNION" ∉ euler_orders).
  { intros Hin. apply (bool_decide_eq_true_2 _) in Hin. discriminate Hin. }
  destruct (decide (rotation_mode o = "QUATERNION")) as [Hq|Hq];
    [|destruct (decide (rotation_mode o ∈ euler_orders)) as [He|He]].
  - rewrite (bool_decide_eq_true_2 _ Hq).
    destruct (bool_decide (event_type e = "ESC") &&
              bool_decide (event_value e = "PRESS"));
      [rewrite cleanup_outcome, cleanup_post|];
      cbn [ret post objects redraw_ui_regions set_area_regions store_object
           set_objects];
      (eexists; split; [apply lookup_insert_eq|]); cbn;
      (conj; try done);
      first [ by intros He; rewrite Hq in He
            | intros Hbad; exfalso; apply Hbad; by left ].
  - rewrite (bool_decide_eq_false_2 _ Hq), (bool_decide_eq_true_2 _ He).
    destruct (bool_decide (event_type e = "ESC") &&
              bool_decide (event_value e = "PRESS"));
      [rewrite cleanup_outcome, cleanup_post|];
      cbn [ret post objects redraw_ui_regions set_area_regions store_object
           set_objects];
      (eexists; split; [apply lookup_insert_eq|]); cbn;
      (conj; try done);
      intros Hbad; exfalso; apply Hbad; by right.
  - rewrite (bool_decide_eq_false_2 _ Hq), (bool_decide_eq_false_2 _ He).
    cbn [ret reports post objects store_object set_objects is_piloting
         area_regions].
    eexists; split; [apply lookup_insert_eq|]. cbn. conj; done.
Qed.

Lemma modal_cases (L : string) e s :
  let out := modal L e s in
  (ret out = "FINISHED" ∧
   reports out = [("INFO", "Exited light pilot mode")] ∧
   is_piloting (post out) = false ∧
   piloted_light (post out) = None ∧
   previous_view_state (post out) = dict_empty ∧
   scene (post out) !! "lightpilot_active_light" = None)
  ∨
  (ret out = "PASS_THROUGH" ∧
   reports out = [] ∧
   is_piloting s = true ∧
   is_piloting (post out) = true ∧
   piloted_light (post out) = piloted_light s ∧
   previous_view_state (post out) = previous_view_state s ∧
   region_data (post out) = region_data s ∧
   space_data (post out) = space_data s ∧
   scene (post out) = scene s ∧
   modal_handlers (post out) = modal_handlers s)
  ∨
  (ret out = "ValueError" ∧
   reports out = [] ∧
   (∃ o, objects s !! L = Some o ∧
         is_directional o = true ∧ ¬ rotation_mode_ok o) ∧
   is_piloting s = true ∧
   is_piloting (post out) = true ∧
   piloted_light (post out) = piloted_light s ∧
   previous_view_state (post out) = previous_view_state s ∧
   region_data (post out) = region_data s ∧
   space_data (post out) = space_data s ∧
   scene (post out) = scene s ∧
   modal_handlers (post out) = modal_handlers s ∧
   area_regions (post out) = area_regions s).
Proof.
  intros out. unfold out.
  assert (Hstop : ∀ t, modal L e s = cleanup t →
            ret (modal L e s) = "FINISHED" ∧
            reports (modal L e s) = [("INFO", "Exited light pilot mode")] ∧
            is_piloting (post (modal L e s)) = false ∧
            piloted_light (post (modal L e s)) = None ∧
            previous_view_state (post (modal L e s)) = dict_empty ∧
            scene (post (modal L e s)) !! "lightpilot_active_light" = None).
  { intros t ->. destruct (cleanup_idle t) as (? & ? & ? & ?).
    rewrite cleanup_outcome. cbn [ret reports post]. conj; done. }
  destruct (is_piloting s) eqn:Hp;
    [|left; apply (Hstop s), modal_stops; by left].
  destruct (decide (area_type s = "VIEW_3D")) as [Ha|Ha];
    [|left; apply (Hstop s), modal_stops; by right].
  destruct (objects s !! L) as [o|] eqn:Hl;
    [|right; left; rewrite (modal_missing_light L e s Hp Ha Hl);
      cbn; conj; done].
  pose proof (modal_found L e s o Hp Ha Hl) as Hm. cbn zeta in Hm.
  destruct (is_directional o) eqn:Hdir;
    [destruct (bool_decide (rotation_mode o = "QUATERNION")) eqn:Hq;
     [|destruct (bool_decide (rotation_mode o ∈ euler_orders)) eqn:He]|].
  4: destruct (bool_decide (event_type e = "ESC") &&
               bool_decide (event_value e = "PRESS")).
  4: by left; eapply Hstop.
  4: right; left; rewrite Hm; cbn; conj; done.
  1,2: destruct (bool_decide (event_type e = "ESC") &&
                 bool_decide (event_value e = "PRESS")).
  1,3: by left; eapply Hstop.
  1,2: right; left; rewrite Hm; cbn; conj; done.
  right; right. rewrite Hm. cbn [ret reports post].
  split; [done|]. split; [done|]. split.
  { exists o. split; [done|]. split; [done|].
    apply bool_decide_eq_false_1 in Hq, He. by intros [?|?]. }
  cbn. conj; done.
Qed.

(** X4.  A [modal] call (with a context that has an area) ends in one of
    three ways.  It returns [{'FINISHED'}] with the exit notice and leaves
    the session idle (flag down, no target, no snapshot, no scene
    property).  Or it returns [{'PASS_THROUGH'}] without any notice, in
    which case the session was and stays active and target, snapshot,
    viewport, scene properties and modal handlers are exactly as before.
    Or it raises [ValueError], which happens only for a directional light
    whose rotation mode is neither ['QUATERNION'] nor an Euler order; the
    session then stays active and, apart from the light's location, as it
    was, with no region tagged. *)
Theorem modal_outcome (L : string) e s :
  let out := modal L e s in
  (ret out = "FINISHED" ∧
   reports out = [("INFO", "Exited light pilot mode")] ∧
   is_piloting (post out) = false ∧
   piloted_light (post out) = None ∧
   previous_view_state (post out) = dict_empty ∧
   scene (post out) !! "lightpilot_active_light" = None)
  ∨
  (ret out = "PASS_THROUGH" ∧
   reports out = [] ∧
   is_piloting s = true ∧
   is_piloting (post out) = true ∧
   piloted_light (post out) = piloted_light s ∧
   previous_view_state (post out) = previous_view_state s ∧
   region_data (post out) = region_data s ∧
   space_data (post out) = space_data s ∧
   scene (post out) = scene s ∧
   modal_handlers (post out) = modal_handlers s)
  ∨
  (ret out = "ValueError" ∧
   reports out = [] ∧
   (∃ o, objects s !! L = Some o ∧
         is_directional o = true ∧ ¬ rotation_mode_ok o) ∧
   is_piloting s = true ∧
   is_piloting (post out) = true ∧
   piloted_light (post out) = piloted_light s ∧
   previous_view_state (post out) = previous_view_state s ∧
   region_data (post out) = region_data s ∧
   space_data (post out) = space_data s ∧
   scene (post out) = scene s ∧
   modal_handlers (post out) = modal_handlers s ∧
   area_regions (post out) = area_regions s).
Proof. exact (modal_cases L e s). Qed.

(** X5.  A Tick that goes on (active session, 3D viewport, light present
    with a rotation that can be written, event other than an escape
    press) tags every region of type ['UI'] of the area for redraw and
    leaves every other region as it is. *)
Theorem modal_tags_ui_regions (L : string) e s o :
  is_piloting s = true →
  area_type s = "VIEW_3D" →
  objects s !! L = Some o →
  (is_directional o = true → rotation_mode_ok o) →
  ¬ (event_type e = "ESC" ∧ event_value e = "PRESS") →
  let regions := area_regions (post (modal L e s)) in
  length regions = length (area_regions s) ∧
  ∀ i r, area_regions s !! i = Some r →
    regions !! i =
      Some (if bool_decide (region_type r = "UI")
            then mkRegion "UI" true else r).
Proof.
  intros Hp Ha Hl Hok Hev regions. unfold regions.
  assert (Hesc : bool_decide (event_type e = "ESC") &&
                 bool_decide (event_value e = "PRESS") = false).
  { apply andb_false_iff.
    destruct (decide (event_type e = "ESC")) as [Ht|Ht].
    - right. apply bool_decide_eq_false_2. intros Hv. by apply Hev.
    - left. by apply bool_decide_eq_false_2. }
  assert (Hreg : area_regions (post (modal L e s)) =
                 area_regions (redraw_ui_regions s)).
  { rewrite (modal_found L e s o Hp Ha Hl), Hesc.
    destruct (is_directional o); [|reflexivity].
    destruct (Hok eq_refl) as [Hq|He].
    - by rewrite (bool_decide_eq_true_2 _ Hq).
    - destruct (bool_decide (rotation_mode o = "QUATERNION"));
        [|rewrite (bool_decide_eq_true_2 _ He)]; reflexivity. }
  rewrite Hreg. cbn [area_regions redraw_ui_regions set_area_regions].
  split; [by rewrite length_map|].
  intros i r Hi. rewrite list_lookup_fmap, Hi. cbn [fmap option_fmap option_map].
  destruct (decide (region_type r = "UI")) as [Hu|Hu].
  - rewrite !(bool_decide_eq_true_2 _ Hu). unfold tag_redraw. by rewrite Hu.
  - by rewrite !(bool_decide_eq_false_2 _ Hu).
Qed.

(** ** Stop *)

Lemma cleanup_fields s :
  let d := previous_view_state s in
  let stopped := post (cleanup s) in
  view_location (region_data stopped) =
    default (view_location (region_data s)) (d_view_location d) ∧
  view_rotation (region_data stopped) =
    default (view_rotation (region_data s)) (d_view_rotation d) ∧
  view_distance (region_data stopped) =
    default (view_distance (region_data s)) (d_view_distance d) ∧
  view_perspective (region_data stopped) =
    default (view_perspective (region_data s)) (d_view_perspective d) ∧
  use_local_camera (space_data stopped) =
    default (use_local_camera (space_data s)) (d_use_local_camera d) ∧
  camera (space_data stopped) =
    match d_camera d with
    | Some (Some c) => Some c
    | _ => match d_use_local_camera d with
           | Some false => scene_camera s
           | _ => camera (space_data s)
           end
    end ∧
  view_matrix (region_data stopped) = view_matrix (region_data s).
Proof.
  intros d stopped. unfold stopped, d.
  rewrite cleanup_post, restore_view_state_eq.
  cbn [region_data space_data].
  destruct (dict_truthy (previous_view_state s)) eqn:Ht.
  - cbn. conj; reflexivity.
  - apply dict_truthy_false in Ht. rewrite Ht. cbn. conj; reflexivity.
Qed.

(** X6.  [cleanup] restores field by field: each of view location,
    rotation, distance, perspective and the local-camera flag becomes the
    captured value when its key is in the snapshot and keeps its current
    value otherwise; the view matrix is never written.  The bound camera
    becomes the captured camera when that is not [None]; failing that it
    becomes the scene camera when the flag restored is [False] (the host
    binds it on that assignment), and stays as it is in any other case.
    With an empty snapshot the viewport is therefore untouched. *)
Theorem cleanup_restores_fieldwise s :
  let d := previous_view_state s in
  let stopped := post (cleanup s) in
  view_location (region_data stopped) =
    default (view_location (region_data s)) (d_view_location d) ∧
  view_rotation (region_data stopped) =
    default (view_rotation (region_data s)) (d_view_rotation d) ∧
  view_distance (region_data stopped) =
    default (view_distance (region_data s)) (d_view_distance d) ∧
  view_perspective (region_data stopped) =
    default (view_perspective (region_data s)) (d_view_perspective d) ∧
  use_local_camera (space_data stopped) =
    default (use_local_camera (space_data s)) (d_use_local_camera d) ∧
  camera (space_data stopped) =
    match d_camera d with
    | Some (Some c) => Some c
    | _ => match d_use_local_camera d with
           | Some false => scene_camera s
           | _ => camera (space_data s)
           end
    end ∧
  view_matrix (region_data stopped) = view_matrix (region_data s).
Proof. exact (cleanup_fields s). Qed.

(** X7.  No operator adds or removes a scene object: [invoke], [cleanup]
    and the Exit command leave [bpy.data.objects] as it is, and [modal]
    keeps the set of names and every object other than
    [self.light_object]. *)
Theorem operators_keep_object_names (L : string) e s :
  objects (post (invoke L e s)) = objects s ∧
  objects (post (cleanup s)) = objects s ∧
  objects (post (exit_pilot_execute s)) = objects s ∧
  dom (objects (post (modal L e s))) = dom (objects s) ∧
  ∀ n, n ≠ L → objects (post (modal L e s)) !! n = objects s !! n.
Proof.
  split; [|split; [|split; [|split]]].
  - destruct (objects s !! L) as [o|] eqn:Hl.
    + by rewrite (invoke_found _ _ _ _ Hl).
    + unfold invoke. by rewrite Hl.
  - by rewrite cleanup_post.
  - reflexivity.
  - destruct (is_piloting s) eqn:Hp;
      [|by rewrite modal_stops, cleanup_post by by left].
    destruct (decide (area_type s = "VIEW_3D")) as [Ha|Ha];
      [|by rewrite modal_stops, cleanup_post by by right].
    destruct (objects s !! L) as [o|] eqn:Hl;
      [|by rewrite (modal_missing_light L e s Hp Ha Hl)].
    destruct (modal_sync L e s o Hp Ha Hl) as (o' & -> & _).
    apply dom_insert_lookup_L. by eexists.
  - intros n Hn. by apply modal_other_objects.
Qed.

(** ** Whole sessions *)

(** X8.  An escape press during an active session with a complete
    snapshot and the light present, its rotation writable (not a
    directional light in a mode that makes the conversion raise): the Tick
    still writes the viewer location to the light, then restores view
    location, rotation, distance, projection mode and local-camera flag
    from the snapshot and ends the session. *)
Theorem escape_tick_syncs_then_restores (L : string) s o :
  is_piloting s = true →
  area_type s = "VIEW_3D" →
  objects s !! L = Some o →
  (is_directional o = true → rotation_mode_ok o) →
  dict_full (previous_view_state s) →
  let out := modal L (mkEvent "ESC" "PRESS") s in
  ret out = "FINISHED" ∧
  (∃ o', objects (post out) !! L = Some o' ∧
         location o' = translation (inverted (view_matrix (region_data s)))) ∧
  Some (view_location (region_data (post out))) =
    d_view_location (previous_view_state s) ∧
  Some (view_rotation (region_data (post out))) =
    d_view_rotation (previous_view_state s) ∧
  Some (view_distance (region_data (post out))) =
    d_view_distance (previous_view_state s) ∧
  Some (view_perspective (region_data (post out))) =
    d_view_perspective (previous_view_state s) ∧
  Some (use_local_camera (space_data (post out))) =
    d_use_local_camera (previous_view_state s) ∧
  is_piloting (post out) = false ∧
  previous_view_state (post out) = dict_empty.
Proof.
  intros Hp Ha Hl Hok Hfull out.
  destruct (modal_sync L (mkEvent "ESC" "PRESS") s o Hp Ha Hl)
    as (o' & Hobj & Hloc & _).
  fold out in Hobj.
  assert (Hout : ∃ t, out = cleanup t ∧
                      previous_view_state t = previous_view_state s ∧
                      region_data t = region_data s ∧
                      space_data t = space_data s).
  { unfold out. rewrite (modal_found L _ s o Hp Ha Hl).
    cbn [event_type event_value].
    assert (Hesc : bool_decide ("ESC" = "ESC") &&
                   bool_decide ("PRESS" = "PRESS") = true) by reflexivity.
    rewrite Hesc. clear Hesc.
    destruct (is_directional o).
    - destruct (Hok eq_refl) as [Hq|He].
      + rewrite (bool_decide_eq_true_2 _ Hq). by eexists.
      + destruct (bool_decide (rotation_mode o = "QUATERNION"));
          [|rewrite (bool_decide_eq_true_2 _ He)]; by eexists.
    - by eexists. }
  destruct Hout as (t & Ht & Hd & Hr & Hs).
  destruct (cleanup_fields t) as (H1 & H2 & H3 & H4 & H5 & _).
  destruct (cleanup_idle t) as (Hi & _ & He & _).
  rewrite <- Ht in H1, H2, H3, H4, H5, Hi, He.
  rewrite Hd in H1, H2, H3, H4, H5.
  destruct Hfull as ([? E1] & [? E2] & [? E3] & [? E4] & [? E5] & _).
  rewrite E1 in H1 |- *. rewrite E2 in H2 |- *. rewrite E3 in H3 |- *.
  rewrite E4 in H4 |- *. rewrite E5 in H5 |- *. cbn [default] in *.
  split; [by rewrite Ht|].
  split; [exists o'; by rewrite Hobj, lookup_insert_eq|].
  rewrite H1, H2, H3, H4, H5. conj; done.
Qed.

(** X9.  When [poll] of the pilot command holds, the command starts a
    session on the selected object: it returns [{'FINISHED'}], reports
    "Now piloting light: <name>", sets [is_piloting], records the target
    and the scene property, moves the view pivot to the light and adds one
    modal handler.  The error path of [invoke] is not reachable through
    the command. *)
Theorem pilot_light_starts_session e s :
  pilot_light_poll s = true →
  ∃ name o out,
    context_object s = Some name ∧
    objects s !! name = Some o ∧
    obj_type o = "LIGHT" ∧
    pilot_light e s = Some out ∧
    ret out = "FINISHED" ∧
    reports out = [("INFO", "Now piloting light: " +:+ name)] ∧
    is_piloting (post out) = true ∧
    piloted_light (post out) = Some name ∧
    scene (post out) !! "lightpilot_active_light" = Some name ∧
    view_location (region_data (post out)) = location o ∧
    modal_handlers (post out) = modal_handlers s ++ [name].
Proof.
  intros Hpoll. unfold pilot_light_poll in Hpoll.
  destruct (context_object s) as [name|] eqn:Hc; [|discriminate].
  cbn [mbind option_bind] in Hpoll.
  destruct (objects s !! name) as [o|] eqn:Ho; [|discriminate].
  apply bool_decide_eq_true_1 in Hpoll.
  exists name, o. eexists. do 3 (split; [done|]).
  split; [exact (pilot_light_runs_invoke _ _ _ _ Hc Ho Hpoll)|].
  rewrite (invoke_found _ _ _ _ Ho).
  cbn [ret reports post is_piloting piloted_light scene region_data
       view_location modal_handlers].
  rewrite lookup_insert_eq. conj; reflexivity.
Qed.

(** The pilot command is unavailable exactly when its [poll] fails:
    under [poll], [execute] never runs into a missing [context.object]. *)
Lemma pilot_light_unavailable e s :
  pilot_light e s = None ↔ pilot_light_poll s = false.
Proof.
  unfold pilot_light, pilot_light_poll, pilot_light_execute.
  destruct (context_object s) as [name|]; cbn [mbind option_bind]; [|done].
  destruct (objects s !! name) as [o|]; [|done].
  destruct (bool_decide (obj_type o = "LIGHT")); split;
    first [discriminate | done].
Qed.

(** A Tick that goes on: past the exit check, light present with a
    writable rotation, no escape press. *)
Lemma modal_continues (L : string) e s o :
  is_piloting s = true →
  area_type s = "VIEW_3D" →
  objects s !! L = Some o →
  (is_directional o = true → rotation_mode_ok o) →
  ¬ (event_type e = "ESC" ∧ event_value e = "PRESS") →
  ∃ o',
    modal L e s =
      mkOutcome "PASS_THROUGH" [] (redraw_ui_regions (store_object L o' s)) ∧
    location o' = translation (inverted (view_matrix (region_data s))).
Proof.
  intros Hp Ha Hl Hok Hev. rewrite (modal_found L e s o Hp Ha Hl).
  assert (Hesc : bool_decide (event_type e = "ESC") &&
                 bool_decide (event_value e = "PRESS") = false).
  { apply andb_false_iff.
    destruct (decide (event_type e = "ESC")) as [Ht|Ht].
    - right. apply bool_decide_eq_false_2. intros Hv. by apply Hev.
    - left. by apply bool_decide_eq_false_2. }
  rewrite Hesc.
  destruct (is_directional o); [|by eexists].
  destruct (Hok eq_refl) as [Hq|He].
  - rewrite (bool_decide_eq_true_2 _ Hq). by eexists.
  - destruct (bool_decide (rotation_mode o = "QUATERNION"));
      [|rewrite (bool_decide_eq_true_2 _ He)]; by eexists.
Qed.

(** X10.  A whole session: Start on an existing light in a 3D viewport
    (its rotation writable: not a directional light in a mode that makes
    the conversion raise), a Tick that goes on after the user navigated
    (region data [r1]), more navigation ([r2]), the Exit command, and the
    next Tick.  That Tick finishes; the four captured fields of
    [region_data] and the local-camera flag are the ones from before Start
    (the view matrix is the host's current one); the bound camera is the
    one from before Start when the view had one and the scene camera
    otherwise; the session is idle, and the light sits where the viewer
    was at the first Tick. *)
Theorem session_round_trip (L : string) e e1 e2 r1 r2 s o :
  objects s !! L = Some o →
  area_type s = "VIEW_3D" →
  (is_directional o = true → rotation_mode_ok o) →
  ¬ (event_type e1 = "ESC" ∧ event_value e1 = "PRESS") →
  let started := post (invoke L e s) in
  let ticked := post (modal L e1 (set_region_data r1 started)) in
  ∃ exited,
    exit_pilot (set_region_data r2 ticked) = Some exited ∧
    let out := modal L e2 (post exited) in
    ret out = "FINISHED" ∧
    region_data (post out) =
      mkRegionView3D
        (view_location (region_data s)) (view_rotation (region_data s))
        (view_distance (region_data s)) (view_perspective (region_data s))
        (view_matrix r2) ∧
    use_local_camera (space_data (post out)) =
      use_local_camera (space_data s) ∧
    camera (space_data (post out)) =
      match camera (space_data s) with
      | Some c => Some c
      | None => scene_camera s
      end ∧
    is_piloting (post out) = false ∧
    piloted_light (post out) = None ∧
    previous_view_state (post out) = dict_empty ∧
    scene (post out) !! "lightpilot_active_light" = None ∧
    ∃ o', objects (post out) !! L = Some o' ∧
          location o' = translation (inverted (view_matrix r1)).
Proof.
  intros Hl Ha Hok Hev started ticked.
  (* the state after Start *)
  assert (Hst : started = post (invoke L e s)) by reflexivity.
  rewrite (invoke_found _ _ _ _ Hl) in Hst. cbn [post] in Hst.
  (* the continuing tick *)
  set (t0 := set_region_data r1 started).
  assert (Hp0 : is_piloting t0 = true) by (unfold t0; by rewrite Hst).
  assert (Ha0 : area_type t0 = "VIEW_3D") by (unfold t0; by rewrite Hst).
  assert (Hl0 : objects t0 !! L = Some o) by (unfold t0; by rewrite Hst).
  destruct (modal_continues L e1 t0 o Hp0 Ha0 Hl0 Hok Hev)
    as (o' & Hm & Hloc).
  assert (Htk : ticked = redraw_ui_regions (store_object L o' t0))
    by (unfold ticked; fold t0; by rewrite Hm).
  rewrite Htk.
  (* the Exit command and the last tick *)
  set (T := set_is_piloting false
              (set_region_data r2
                 (redraw_ui_regions (store_object L o' t0)))).
  exists (mkOutcome "FINISHED" [] T). split.
  { unfold exit_pilot, exit_pilot_poll, exit_pilot_execute.
    cbn [is_piloting set_region_data redraw_ui_regions set_area_regions
         store_object set_objects].
    by rewrite Hp0. }
  intros out.
  assert (Hout : out = cleanup T) by reflexivity.
  rewrite Hout, cleanup_outcome. cbn [ret post].
  destruct (cleanup_idle T) as (Hi & Hpl & He & Hk).
  destruct (cleanup_fields T) as (H1 & H2 & H3 & H4 & H5 & H6 & H7).
  assert (HdT : previous_view_state T = previous_view_state started)
    by reflexivity.
  assert (HsT : space_data T = space_data started) by reflexivity.
  assert (HcT : scene_camera T = scene_camera started) by reflexivity.
  assert (HoT : objects T = <[L := o']> (objects started)) by reflexivity.
  rewrite HdT in H1, H2, H3, H4, H5, H6. rewrite HsT, HcT in H6.
  rewrite Hst in H1, H2, H3, H4, H5, H6.
  cbn [previous_view_state space_data scene_camera d_view_location
       d_view_rotation d_view_distance d_view_perspective
       d_use_local_camera d_camera default camera] in H1, H2, H3, H4, H5, H6.
  unfold id in H1, H2, H3, H4, H5.
  split; [reflexivity|].
  split.
  { destruct (region_data (post (cleanup T))).
    cbn [view_location view_rotation view_distance view_perspective
         view_matrix] in H1, H2, H3, H4, H7.
    by rewrite H1, H2, H3, H4, H7. }
  split; [exact H5|].
  split.
  { rewrite H6. by destruct (space_data s) as [[|] [c|]]. }
  do 4 (split; [done|]).
  exists o'. rewrite cleanup_post. cbn [objects]. rewrite HoT.
  rewrite lookup_insert_eq. split; [done|]. exact Hloc.
Qed.

(** X11.  Start on a second light while the first session is running:
    the snapshot now holds the piloting view of the first light, the target
    is the second light and both modal handlers are installed.  The Stop
    that follows puts the viewport back to that piloting view (pivot at the
    first light, distance 0.001, perspective, local camera off), not to the
    view from before the first Start. *)
Theorem restart_then_stop (L1 L2 : string) e1 e2 s o1 o2 :
  objects s !! L1 = Some o1 →
  objects s !! L2 = Some o2 →
  let first := post (invoke L1 e1 s) in
  let second := post (invoke L2 e2 first) in
  let stopped := post (cleanup second) in
  piloted_light second = Some L2 ∧
  modal_handlers second = modal_handlers s ++ [L1; L2] ∧
  previous_view_state second =
    mkViewStateDict
      (Some (view_location (region_data first)))
      (Some (view_rotation (region_data first)))
      (Some (view_distance (region_data first)))
      (Some (view_perspective (region_data first)))
      (Some (use_local_camera (space_data first)))
      (Some (camera (space_data first))) ∧
  view_location (region_data stopped) = location o1 ∧
  view_rotation (region_data stopped) = view_rotation (region_data first) ∧
  view_distance (region_data stopped) = float_lit (1 # 1000) ∧
  view_perspective (region_data stopped) = "PERSP" ∧
  use_local_camera (space_data stopped) = false.
Proof.
  intros H1 H2 first second stopped.
  assert (Hf : first = post (invoke L1 e1 s)) by reflexivity.
  rewrite (invoke_found _ _ _ _ H1) in Hf. cbn [post] in Hf.
  assert (H2' : objects first !! L2 = Some o2) by by rewrite Hf.
  assert (Hs : second = post (invoke L2 e2 first)) by reflexivity.
  rewrite (invoke_found _ _ _ _ H2') in Hs. cbn [post] in Hs.
  destruct (cleanup_fields second) as (R1 & R2 & R3 & R4 & R5 & _).
  fold stopped in R1, R2, R3, R4, R5.
  rewrite R1, R2, R3, R4, R5, Hs.
  cbn [piloted_light modal_handlers previous_view_state d_view_location
       d_view_rotation d_view_distance d_view_perspective d_use_local_camera
       default].
  unfold id. rewrite Hf.
  cbn [modal_handlers region_data space_data view_location view_distance
       view_perspective use_local_camera].
  rewrite <- app_assoc. conj; reflexivity.
Qed.

(** ** An invariant of the globals *)

Lemma dict_full_not_empty d : dict_full d → d ≠ dict_empty.
Proof. intros ([? E] & _) ->. discriminate E. Qed.

Lemma session_inv_invoke (L : string) e s :
  session_inv s → session_inv (post (invoke L e s)).
Proof.
  intros Hinv. destruct (objects s !! L) as [o|] eqn:Hl.
  - rewrite (invoke_found _ _ _ _ Hl). unfold session_inv, dict_full.
    cbn [post previous_view_state is_piloting piloted_light scene
         d_view_location d_view_rotation d_view_distance d_view_perspective
         d_use_local_camera d_camera].
    rewrite lookup_insert_eq.
    split; [right|intros _]; conj; by eexists.
  - unfold invoke. by rewrite Hl.
Qed.

Lemma session_inv_cleanup s : session_inv (post (cleanup s)).
Proof.
  destruct (cleanup_idle s) as (Hp & _ & Hd & _).
  split; [by left|]. by rewrite Hp.
Qed.

Lemma session_inv_modal (L : string) e s :
  session_inv s → session_inv (post (modal L e s)).
Proof.
  intros [Hd Hact].
  destruct (modal_cases L e s)
    as [(_ & _ & Hp & _ & He & _)
       |[(_ & _ & Hp & _ & Hpl & Hd' & _ & _ & Hsc & _)
        |(_ & _ & _ & Hp & _ & Hpl & Hd' & _ & _ & Hsc & _)]].
  - split; [by left|]. by rewrite Hp.
  - unfold session_inv. rewrite Hd', Hpl, Hsc. split; [done|].
    intros _. by apply Hact.
  - unfold session_inv. rewrite Hd', Hpl, Hsc. split; [done|].
    intros _. by apply Hact.
Qed.

Lemma session_inv_step s s' :
  session_inv s → step s s' → session_inv s'.
Proof.
  intros Hinv Hstep. destruct Hstep as
    [e s out Hout|L e s|L e s|s out Hout|s s' Hp Hl Hd Hsc].
  - unfold pilot_light in Hout.
    destruct (pilot_light_poll s); [|discriminate].
    unfold pilot_light_execute in Hout.
    destruct (context_object s) as [name|]; [|discriminate].
    cbn [mbind option_bind] in Hout. injection Hout as <-.
    cbn [post]. by apply session_inv_invoke.
  - by apply session_inv_invoke.
  - by apply session_inv_modal.
  - unfold exit_pilot in Hout.
    destruct (exit_pilot_poll s); [|discriminate].
    injection Hout as <-. destruct Hinv as [Hd _].
    split; [exact Hd|]. discriminate.
  - destruct Hinv as [Hd' Hact]. unfold session_inv.
    rewrite Hp, Hl, Hd, Hsc. by split.
Qed.

(** X12.  From a freshly loaded module (flag down, empty snapshot),
    whatever sequence of commands, direct invocations, Ticks (also those
    that end in the conversion's [ValueError]) and actions of the host
    follows: the snapshot is always empty or complete, and an active
    session always has a complete snapshot, a recorded target and the
    scene property. *)
Theorem session_inv_reachable s0 s :
  is_piloting s0 = false →
  previous_view_state s0 = dict_empty →
  rtc step s0 s →
  (previous_view_state s = dict_empty ∨ dict_full (previous_view_state s)) ∧
  (is_piloting s = true →
     dict_full (previous_view_state s) ∧
     is_Some (piloted_light s) ∧
     is_Some (scene s !! "lightpilot_active_light")).
Proof.
  intros Hp Hd Hsteps. change (session_inv s).
  assert (H0 : session_inv s0).
  { split; [by left|]. by rewrite Hp. }
  clear Hp Hd. induction Hsteps as [|x y z Hxy _ IH]; [exact H0|].
  apply IH. by eapply session_inv_step.
Qed.

(** ** The panel *)

Lemma draw_some sc ld s layout :
  draw sc ld s = Some layout →
  concat (map layout_operators layout) = draw_operators s ∧
  list.last layout =
    Some (UIBox
            [ UILabel "Settings:" "NONE";
              UIProp OwnerScene "lightpilot_show_coords"
                "Show Coordinates" ]).
Proof.
  unfold draw, draw_operators.
  destruct (is_piloting s && bool_decide (is_Some (piloted_light s))).
  - destruct (piloted_light s) as [name|]; [|discriminate].
    cbn [mbind option_bind].
    destruct (objects s !! name) as [o|]; [|discriminate].
    cbn [mbind option_bind]. intros [= <-]. split.
    + destruct sc; [destruct (is_directional o);
        [destruct (bool_decide (rotation_mode o = "QUATERNION"))|]|];
      (destruct (bool_decide (data_type o = "POINT"));
       [|destruct (bool_decide (data_type o = "SPOT"));
         [|destruct (bool_decide (data_type o = "SUN"));
           [|destruct (bool_decide (data_type o = "AREA"));
             [destruct (bool_decide
                          (light_shape ld ∈ ["RECTANGLE"; "ELLIPSE"]))|]]]]);
      destruct (light_use_shadow ld); reflexivity.
    + reflexivity.
  - cbn [mbind option_bind]. intros [= <-].
    destruct (pilot_light_poll s); split; reflexivity.
Qed.

(** X13.  The buttons that [draw] lays out are those of [draw_operators],
    and every button it shows is for a command whose [poll] holds: the
    exit button only while [is_piloting], the pilot button only with a
    light selected and no session shown as active. *)
Theorem draw_offers_available_commands sc ld s layout :
  draw sc ld s = Some layout →
  concat (map layout_operators layout) = draw_operators s ∧
  ∀ op, op ∈ concat (map layout_operators layout) →
    (op = "light.exit_pilot" ∧ exit_pilot_poll s = true) ∨
    (op = "light.pilot" ∧ pilot_light_poll s = true ∧
     (is_piloting s = false ∨ piloted_light s = None)).
Proof.
  intros Hd. destruct (draw_some _ _ _ _ Hd) as [Hops _].
  split; [exact Hops|]. rewrite Hops. unfold draw_operators, exit_pilot_poll.
  intros op. destruct (is_piloting s) eqn:Hp; cbn [andb].
  - destruct (piloted_light s) as [n|] eqn:Hl.
    + rewrite bool_decide_eq_true_2 by eauto.
      intros ->%list_elem_of_singleton. by left.
    + rewrite bool_decide_eq_false_2 by (by intros [? ?]).
      destruct (pilot_light_poll s).
      * intros ->%list_elem_of_singleton. right. eauto.
      * by intros ?%elem_of_nil.
  - destruct (pilot_light_poll s).
    + intros ->%list_elem_of_singleton. right. eauto.
    + by intros ?%elem_of_nil.
Qed.

(** X14.  With no session shown as active ([is_piloting] down or no
    target recorded) [draw] does not raise and lays out two elements: the
    pilot button when a light is selected, the hint "Select a light to
    pilot" otherwise, and then the Settings box.  Every layout that [draw]
    returns, in whatever state, ends with that Settings box holding the
    "Show Coordinates" property. *)
Theorem draw_idle_layout sc ld s :
  let settings :=
    UIBox [ UILabel "Settings:" "NONE";
            UIProp OwnerScene "lightpilot_show_coords" "Show Coordinates" ] in
  (is_piloting s = false ∨ piloted_light s = None →
   draw sc ld s =
     Some [ if pilot_light_poll s
            then UIOperator "light.pilot" "OUTLINER_OB_LIGHT"
            else UILabel "Select a light to pilot" "NONE";
            settings ]) ∧
  (∀ layout, draw sc ld s = Some layout → list.last layout = Some settings).
Proof.
  intros settings.
  split; [|intros layout Hd; by destruct (draw_some _ _ _ _ Hd)].
  intros Hidle. unfold draw.
  assert (Hc : is_piloting s && bool_decide (is_Some (piloted_light s)) =
               false).
  { destruct Hidle as [->| ->]; [reflexivity|].
    rewrite bool_decide_eq_false_2 by (by intros [? ?]).
    apply andb_false_r. }
  by rewrite Hc.
Qed.

(** X15.  While piloting, the properties of the light object shown by the
    panel are: none when "Show Coordinates" is off; otherwise the location
    and, for a directional light only, the one rotation field that its
    rotation mode selects, which is the field a Tick writes. *)
Theorem draw_rotation_readout sc ld s name o layout :
  is_piloting s = true →
  piloted_light s = Some name →
  objects s !! name = Some o →
  draw sc ld s = Some layout →
  filter (λ p, p.1 = OwnerObject name) (concat (map layout_props layout)) =
    if sc then
      (OwnerObject name, "location") ::
      (if is_directional o then
         [(OwnerObject name,
           if bool_decide (rotation_mode o = "QUATERNION")
           then "rotation_quaternion" else "rotation_euler")]
       else [])
    else [].
Proof.
  intros Hp Hl Ho. unfold draw. rewrite Hp, Hl.
  rewrite bool_decide_eq_true_2 by eauto. cbn [andb mbind option_bind].
  rewrite Ho. cbn [mbind option_bind]. intros [= <-].
  assert (Hne : OwnerLightData name ≠ OwnerObject name) by discriminate.
  assert (Hns : OwnerScene ≠ OwnerObject name) by discriminate.
  destruct sc; [destruct (is_directional o);
      [destruct (bool_decide (rotation_mode o = "QUATERNION"))|]|];
    (destruct (bool_decide (data_type o = "POINT"));
     [|destruct (bool_decide (data_type o = "SPOT"));
       [|destruct (bool_decide (data_type o = "SUN"));
         [|destruct (bool_decide (data_type o = "AREA"));
           [destruct (bool_decide
                        (light_shape ld ∈ ["RECTANGLE"; "ELLIPSE"]))|]]]]);
    destruct (light_use_shadow ld);
    cbn [map concat app layout_props];
    repeat first
      [ rewrite filter_nil
      | rewrite filter_cons_True by reflexivity
      | rewrite filter_cons_False by (cbn [fst]; congruence) ];
    reflexivity.
Qed.

(** ** Registration *)

Lemma filter_all {A} (P : A → Prop) `{!∀ x, Decision (P x)} (l : list A) :
  (∀ x, x ∈ l → P x) → filter P l = l.
Proof.
  induction l as [|a l IH]; intros Hall; [reflexivity|].
  rewrite filter_cons_True by (apply Hall; left).
  f_equal. apply IH. intros x Hx. apply Hall. by right.
Qed.

Lemma fresh_id_gt (items : list KeyMapItem) kmi :
  kmi ∈ items → kmi_id kmi < fresh_id items.
Proof.
  unfold fresh_id. induction items as [|a items IH]; intros Hin.
  - by apply elem_of_nil in Hin.
  - apply elem_of_cons in Hin as [->|Hin]; cbn [map foldr]; [lia|].
    specialize (IH Hin). lia.
Qed.

Lemma keymap_items_remove_one (pre post : list KeyMapItem) k :
  (∀ x, x ∈ pre → kmi_id x ≠ kmi_id k) →
  (∀ x, x ∈ post → kmi_id x ≠ kmi_id k) →
  keymap_items_remove (kmi_id k) (pre ++ k :: post) = Some (pre ++ post).
Proof.
  intros Hpre Hpost. unfold keymap_items_remove.
  rewrite bool_decide_eq_true_2.
  - rewrite list.filter_app, filter_cons_False by (intros H; by apply H).
    by rewrite !filter_all.
  - rewrite map_app. apply elem_of_app. right. left.
Qed.

Lemma register_classes_ok (cls registered : list string) :
  NoDup cls →
  (∀ c, c ∈ cls → c ∉ registered) →
  foldl (λ acc c, acc ≫= register_class c) (Some registered) cls =
  Some (registered ++ cls).
Proof.
  revert registered. induction cls as [|c cls IH]; intros reg Hnd Hdis.
  - by rewrite app_nil_r.
  - apply list.NoDup_cons in Hnd as [Hc Hnd]. cbn [foldl mbind option_bind].
    unfold register_class at 2.
    rewrite bool_decide_eq_false_2 by (apply Hdis; left).
    rewrite IH; [by rewrite <- app_assoc|done|].
    intros c' Hc' [Hin|Hin%list_elem_of_singleton]%elem_of_app.
    + apply (Hdis c'); [by right|done].
    + by subst.
Qed.

Lemma unregister_classes_ok (cls registered : list string) :
  NoDup cls →
  (∀ c, c ∈ cls → c ∉ registered) →
  foldl (λ acc c, acc ≫= unregister_class c) (Some (registered ++ cls))
    (reverse cls) = Some registered.
Proof.
  induction cls as [|c cls IH] using rev_ind; intros Hnd Hdis.
  - by rewrite app_nil_r.
  - apply list.NoDup_app in Hnd as (Hnd & Hc & _).
    rewrite reverse_app.
    change (reverse [c] ++ reverse cls) with (c :: reverse cls).
    cbn [foldl mbind option_bind].
    replace (unregister_class c (registered ++ cls ++ [c]))
      with (Some (registered ++ cls)); [by apply IH; [|intros c' Hc';
        apply Hdis, elem_of_app; left]|].
    unfold unregister_class.
    rewrite bool_decide_eq_true_2 by (rewrite !elem_of_app; right; right; left).
    f_equal. symmetry.
    rewrite app_assoc, list.filter_app, filter_cons_False by (intros H; by apply H).
    rewrite filter_nil, app_nil_r, filter_all; [reflexivity|].
    intros x [Hx|Hx]%elem_of_app ->.
    + apply (Hdis c); [apply elem_of_app; right; left|done].
    + apply (Hc c Hx). left.
Qed.

Lemma classes_NoDup : NoDup classes.
Proof. apply (bool_decide_unpack _). vm_compute. exact I. Qed.

Lemma unregister_keymaps_register_keymaps r kc :
  addon_keymaps r = [] →
  keyconfigs_addon r = Some kc →
  unregister_keymaps (register_keymaps r) =
  Some (mkRegistry
          (Some (<[("3D View", "VIEW_3D") :=
                     default [] (kc !! ("3D View", "VIEW_3D"))]> kc))
          [] (registered_classes r) (scene_properties r)).
Proof.
  intros Hrefs Hkc. unfold register_keymaps. rewrite Hkc, Hrefs.
  set (km := ("3D View", "VIEW_3D")).
  set (items := default [] (kc !! km)).
  unfold keymap_items_new.
  set (k1 := mkKeyMapItem (fresh_id items) "light.pilot" "L" "PRESS"
               true false).
  set (k2 := mkKeyMapItem (fresh_id (items ++ [k1])) "light.exit_pilot" "L"
               "PRESS" true true).
  unfold unregister_keymaps.
  cbn [addon_keymaps keyconfigs_addon app registered_classes
       scene_properties remove_keymap_items kmi_id].
  rewrite lookup_insert_eq. cbn [mbind option_bind].
  change (fresh_id items) with (kmi_id k1).
  rewrite <- app_assoc. cbn [app].
  rewrite keymap_items_remove_one.
  2: { intros x Hx. pose proof (fresh_id_gt _ _ Hx). cbn [kmi_id k1]. lia. }
  2: { intros x ->%list_elem_of_singleton.
       assert (Hin : k1 ∈ items ++ [k1]) by (apply elem_of_app; right; left).
       pose proof (fresh_id_gt _ _ Hin). cbn [kmi_id k2 k1] in *. lia. }
  cbn [mbind option_bind]. rewrite lookup_insert_eq. cbn [mbind option_bind].
  change (fresh_id (items ++ [k1])) with (kmi_id k2).
  rewrite keymap_items_remove_one.
  2: { intros x Hx.
       assert (Hin : x ∈ items ++ [k1]) by (apply elem_of_app; by left).
       pose proof (fresh_id_gt _ _ Hin). cbn [kmi_id k2]. lia. }
  2: { by intros x ?%elem_of_nil. }
  cbn [mbind option_bind]. rewrite app_nil_r, !insert_insert_eq.
  reflexivity.
Qed.

(** X16.  [register_keymaps] does nothing without an add-on key
    configuration.  With one, it appends to the keymap ['3D View'] of
    space type ['VIEW_3D'] exactly two items, Alt+L press for [light.pilot]
    and Alt+Shift+L press for [light.exit_pilot], with two distinct ids
    that no earlier item of the keymap has, records both in
    [addon_keymaps], and leaves every other keymap alone. *)
Theorem register_keymaps_binds_two_chords r :
  let km := ("3D View", "VIEW_3D") in
  let r' := register_keymaps r in
  (keyconfigs_addon r = None → r' = r) ∧
  ∀ kc, keyconfigs_addon r = Some kc →
    ∃ id1 id2 kc',
      keyconfigs_addon r' = Some kc' ∧
      kc' !! km =
        Some (default [] (kc !! km) ++
              [ mkKeyMapItem id1 "light.pilot" "L" "PRESS" true false;
                mkKeyMapItem id2 "light.exit_pilot" "L" "PRESS" true true ]) ∧
      id1 ≠ id2 ∧
      (id1 ∉ map kmi_id (default [] (kc !! km))) ∧
      (id2 ∉ map kmi_id (default [] (kc !! km))) ∧
      addon_keymaps r' = addon_keymaps r ++ [(km, id1); (km, id2)] ∧
      (∀ k, k ≠ km → kc' !! k = kc !! k) ∧
      registered_classes r' = registered_classes r ∧
      scene_properties r' = scene_properties r.
Proof.
  intros km r'. split.
  { intros Hn. unfold r', register_keymaps. by rewrite Hn. }
  intros kc Hkc. unfold r', register_keymaps. rewrite Hkc.
  fold km. set (items := default [] (kc !! km)).
  unfold keymap_items_new.
  set (k1 := mkKeyMapItem (fresh_id items) "light.pilot" "L" "PRESS"
               true false).
  exists (fresh_id items), (fresh_id (items ++ [k1])). eexists.
  cbn [keyconfigs_addon addon_keymaps registered_classes scene_properties
       kmi_id].
  split; [reflexivity|].
  rewrite lookup_insert_eq, <- !app_assoc. cbn [app].
  assert (Hlt : ∀ x, x ∈ items → kmi_id x < fresh_id items)
    by apply fresh_id_gt.
  assert (Hlt' : ∀ x, x ∈ items ++ [k1] → kmi_id x < fresh_id (items ++ [k1]))
    by apply fresh_id_gt.
  assert (H12 : fresh_id items < fresh_id (items ++ [k1])).
  { apply (Hlt' k1), elem_of_app. right. left. }
  conj; try done.
  - lia.
  - intros (x & Hx & Hin)%list_elem_of_fmap.
    apply Hlt in Hin. lia.
  - intros (x & Hx & Hin)%list_elem_of_fmap.
    assert (Hin' : x ∈ items ++ [k1]) by (apply elem_of_app; by left).
    apply Hlt' in Hin'. lia.
  - intros k Hk. by rewrite lookup_insert_ne.
Qed.

Lemma keymaps_round_trip_aux r :
  addon_keymaps r = [] →
  ∃ r',
    unregister_keymaps (register_keymaps r) = Some r' ∧
    registered_classes (register_keymaps r) = registered_classes r ∧
    scene_properties (register_keymaps r) = scene_properties r ∧
    addon_keymaps r' = [] ∧
    registered_classes r' = registered_classes r ∧
    scene_properties r' = scene_properties r ∧
    ∀ km, default [] (keyconfigs_addon r' ≫= (.!! km)) =
          default [] (keyconfigs_addon r ≫= (.!! km)).
Proof.
  intros Hrefs. destruct (keyconfigs_addon r) as [kc|] eqn:Hkc.
  - eexists. split;
      [exact (unregister_keymaps_register_keymaps r kc Hrefs Hkc)|].
    unfold register_keymaps. rewrite Hkc.
    cbn [addon_keymaps registered_classes scene_properties keyconfigs_addon
         mbind option_bind keymap_items_new].
    conj; try done. intros km.
    destruct (decide (km = ("3D View", "VIEW_3D"))) as [->|Hne].
    + by rewrite lookup_insert_eq.
    + by rewrite lookup_insert_ne.
  - exists (mkRegistry None [] (registered_classes r) (scene_properties r)).
    unfold register_keymaps. rewrite Hkc. unfold unregister_keymaps.
    rewrite Hrefs, Hkc. done.
Qed.

(** X17.  With [addon_keymaps] empty, [unregister_keymaps] after
    [register_keymaps] does not raise, empties [addon_keymaps] again and
    leaves every keymap with the items it had before (the two new items
    are removed, no other item is). *)
Theorem keymaps_round_trip r :
  addon_keymaps r = [] →
  ∃ r',
    unregister_keymaps (register_keymaps r) = Some r' ∧
    addon_keymaps r' = [] ∧
    registered_classes r' = registered_classes r ∧
    scene_properties r' = scene_properties r ∧
    ∀ km, default [] (keyconfigs_addon r' ≫= (.!! km)) =
          default [] (keyconfigs_addon r ≫= (.!! km)).
Proof.
  intros Hrefs.
  destruct (keymaps_round_trip_aux r Hrefs) as (r' & Hun & _ & _ & H).
  by exists r'.
Qed.

(** X18.  From a state where none of the four classes is registered and
    [addon_keymaps] is empty, [register] succeeds, registers the classes in
    order and defines [lightpilot_show_coords] with default [True];
    [unregister] then succeeds, restores the class list and the keymap
    items, removes the property and empties [addon_keymaps].  On the
    session it only lowers [is_piloting]: viewport and snapshot are not
    restored. *)
Theorem register_unregister_round_trip r s :
  addon_keymaps r = [] →
  (∀ c, c ∈ classes → c ∉ registered_classes r) →
  ∃ r1 r2,
    register r = Some r1 ∧
    registered_classes r1 = registered_classes r ++ classes ∧
    scene_properties r1 !! "lightpilot_show_coords" = Some true ∧
    unregister r1 s = Some (r2, set_is_piloting false s) ∧
    registered_classes r2 = registered_classes r ∧
    addon_keymaps r2 = [] ∧
    scene_properties r2 =
      delete "lightpilot_show_coords" (scene_properties r) ∧
    ∀ km, default [] (keyconfigs_addon r2 ≫= (.!! km)) =
          default [] (keyconfigs_addon r ≫= (.!! km)).
Proof.
  intros Hrefs Hdis. unfold register.
  rewrite (register_classes_ok _ _ classes_NoDup Hdis).
  cbn [mbind option_bind].
  set (r0 := mkRegistry (keyconfigs_addon r) (addon_keymaps r)
               (registered_classes r ++ classes)
               (<["lightpilot_show_coords" := true]> (scene_properties r))).
  destruct (keymaps_round_trip_aux r0 Hrefs)
    as (r' & Hun & Hr1c & Hr1p & Hrefs' & Hcls' & Hprops' & Hkm).
  eexists. eexists. split; [reflexivity|].
  split; [exact Hr1c|]. split; [rewrite Hr1p; apply lookup_insert_eq|].
  unfold unregister. rewrite Hun. cbn [mbind option_bind].
  rewrite Hcls'. cbn [registered_classes r0].
  rewrite (unregister_classes_ok _ _ classes_NoDup Hdis).
  cbn [mbind option_bind]. rewrite Hprops'. cbn [scene_properties r0].
  rewrite lookup_insert_eq. cbn [mbind option_bind].
  split; [reflexivity|].
  cbn [registered_classes addon_keymaps scene_properties keyconfigs_addon].
  rewrite Hrefs', delete_insert_eq. conj; try done.
Qed.

End Further.

End Properties.

(** * The operators on a concrete scene *)

Section Concrete.
#[local] Existing Instance SymMath.
Import Scenario.

(** ** Sessions that do not end *)

(** C1.  The light is deleted while the session on it is running.  The
    next [modal] call passes the exit check, does not find
    [self.light_object] in [bpy.data.objects] and falls through to
    [return {'PASS_THROUGH'}]: [cleanup] is not run, nothing is reported,
    and the state is left as it was, with [is_piloting] still set, the
    target still recorded and the snapshot still unrestored. *)
Theorem tick_after_light_deleted :
  let s := remove_object "Sun" piloting_sun in
  is_piloting s = true ∧
  area_type s = "VIEW_3D" ∧
  objects s !! "Sun" = None ∧
  modal "Sun" mouse_move s = mkOutcome "PASS_THROUGH" [] s ∧
  is_piloting (post (modal "Sun" mouse_move s)) = true ∧
  piloted_light (post (modal "Sun" mouse_move s)) = Some "Sun" ∧
  previous_view_state (post (modal "Sun" mouse_move s)) =
    previous_view_state piloting_sun ∧
  region_data (post (modal "Sun" mouse_move s)) ≠ region_data idle.
Proof.
  intros s.
  assert (Hm : modal "Sun" mouse_move s = mkOutcome "PASS_THROUGH" [] s)
    by (apply modal_missing_light; run).
  rewrite Hm. cbn [post].
  conj; run.
Qed.

(** C9.  Same session, same deleted light, and the event is an escape key
    press.  The escape test sits inside the branch for a light that is
    present, so it is not reached: [modal] returns [{'PASS_THROUGH'}]
    without running [cleanup], whereas with the light present the same
    event ends the session. *)
Theorem escape_after_light_deleted :
  let s := remove_object "Sun" piloting_sun in
  is_piloting s = true ∧
  modal "Sun" esc_press s = mkOutcome "PASS_THROUGH" [] s ∧
  is_piloting (post (modal "Sun" esc_press s)) = true ∧
  ret (modal "Sun" esc_press piloting_sun) = "FINISHED" ∧
  is_piloting (post (modal "Sun" esc_press piloting_sun)) = false.
Proof.
  intros s.
  assert (Hm : modal "Sun" esc_press s = mkOutcome "PASS_THROUGH" [] s)
    by (apply modal_missing_light; run).
  rewrite Hm. cbn [post].
  destruct (modal_escape "Sun" piloting_sun sun) as (Hr & _ & Hp & _);
    [run|run|run|intros _; right; constructor|].
  conj; first [assumption | run].
Qed.

(** ** A rotation mode that cannot be written *)

(** A session on a spot light whose rotation mode is ['AXIS_ANGLE'].  The
    Tick writes the viewer location and then raises [ValueError] from
    [quat.to_euler('AXIS_ANGLE')]: the rotation fields keep their values,
    no region is tagged, and an escape press does not end the session,
    because the escape test comes after the raise. *)
Example tick_axis_angle_raises :
  let s := post (invoke "Spot" alt_l
                   (add_object "Spot" spot_axis_angle idle)) in
  is_piloting s = true ∧
  ret (modal "Spot" esc_press s) = "ValueError" ∧
  ret (modal "Spot" mouse_move s) = "ValueError" ∧
  is_piloting (post (modal "Spot" esc_press s)) = true ∧
  area_regions (post (modal "Spot" mouse_move s)) = area_regions s ∧
  objects (post (modal "Spot" mouse_move s)) !! "Spot" =
    Some (mkObject "LIGHT" "SPOT"
            (call1 "translation" (call1 "inverted" (Ref "view_matrix0")))
            "AXIS_ANGLE"
            (Ref "spot.rotation_quaternion") (Ref "spot.rotation_euler")
            (Ref "spot.matrix_world")).
Proof. intros s. conj; run. Qed.

(** ** Starting twice *)

(** C2.  While the session on "Sun" is running the user selects the light
    "Point" and runs the pilot command.  The panel no longer offers the
    pilot button, but [poll] of [light.pilot] only looks at the selection,
    so the command runs: [invoke] overwrites the snapshot with the
    piloting view (distance 0.001 at the Sun's location) in place of the
    user's view, retargets the session to "Point" and adds a second modal
    handler. *)
Theorem restart_while_piloting :
  let s := select "Point" piloting_sun in
  is_piloting s = true ∧
  draw_operators s = ["light.exit_pilot"] ∧
  pilot_light_poll s = true ∧
  ∃ o,
    pilot_light alt_l s = Some o ∧
    ret o = "FINISHED" ∧
    reports o = [("INFO", "Now piloting light: Point")] ∧
    piloted_light s = Some "Sun" ∧
    piloted_light (post o) = Some "Point" ∧
    d_view_distance (previous_view_state s) = Some (Num 10) ∧
    d_view_distance (previous_view_state (post o)) =
      Some (Num (1 # 1000)) ∧
    d_view_location (previous_view_state s) = Some (vec 1 2 3) ∧
    d_view_location (previous_view_state (post o)) = Some (location sun) ∧
    previous_view_state (post o) ≠ previous_view_state s ∧
    modal_handlers s = ["Sun"] ∧
    modal_handlers (post o) = ["Sun"; "Point"].
Proof.
  intros s. do 3 (split; [run|]).
  eexists. split; [vm_compute; reflexivity|].
  conj; run.
Qed.

(** ** The general statements at the scenario *)



Lemma invoke_missing_light_witness :
  invoke "Moon" alt_l idle =
  mkOutcome "CANCELLED" [("ERROR", "Could not find the specified light")]
    idle.
Proof. apply invoke_missing_light. run. Defined.

Lemma exit_then_tick_witness :
  ∃ exited,
    exit_pilot piloting_sun = Some (mkOutcome "FINISHED" [] exited) ∧
    modal "Sun" mouse_move exited = cleanup exited.
Proof.
  destruct (exit_then_tick "Sun" mouse_move piloting_sun) as (x & H);
    [run|].
  exists x. split; apply H.
Defined.

Lemma modal_point_light_rotation_witness :
  ∃ o',
    objects (post (modal "Point" mouse_move
                     (post (invoke "Point" alt_l idle)))) !! "Point" =
      Some o' ∧
    rotation_quaternion o' = Ref "point.rotation_quaternion" ∧
    rotation_euler o' = Ref "point.rotation_euler".
Proof.
  destruct (modal_point_light_rotation "Point" "Point" mouse_move
              (post (invoke "Point" alt_l idle)) point)
    as (o' & Ho & Hq & He & _).
  - run.
  - cbn [data_type point]. intros Hin.
    apply (bool_decide_eq_true_2 _) in Hin. discriminate Hin.
  - exists o'. split; [exact Ho|]. split; [exact Hq|exact He].
Defined.

Lemma start_then_tick_witness :
  view_location (region_data piloting_sun) = vec 4 1 6 ∧
  view_distance (region_data piloting_sun) = Num (1 # 1000) ∧
  ∃ o',
    objects (post (modal "Sun" mouse_move piloting_sun)) !! "Sun" =
      Some o' ∧
    location o' = call1 "translation" (call1 "inverted" (Ref "view_matrix0")).
Proof.
  destruct (start_then_tick "Sun" alt_l idle sun)
    as (Hl & _ & _ & Hd & _ & _ & _ & Htick); [run|].
  split; [exact Hl|]. split; [exact Hd|].
  exact (Htick (region_data piloting_sun) mouse_move eq_refl).
Defined.

Lemma start_view_rotation_witness :
  sym_view_forward (view_rotation (region_data piloting_sun)) =
  call1 "normalized"
    (call2 "matmul" (call1 "to_quaternion" (Ref "sun.matrix_world"))
       (vec 0 0 (-1))).
Proof.
  destruct (start_view_rotation (M:=SymMath) sym_view_forward eq
              (λ v, eq_refl)
              "Sun" alt_l idle sun) as [_ H].
  - run.
  - cbn [data_type sun]. apply (bool_decide_eq_true_1 _). reflexivity.
  - exact H.
Defined.

(** ** The further properties at the scenario *)

Lemma invoke_point_light_rotation_witness :
  view_rotation (region_data (post (invoke "Point" alt_l idle))) =
  Ref "point.rotation_quaternion".
Proof.
  refine (proj1 (invoke_point_light_rotation "Point" alt_l idle point _ _) _).
  - run.
  - cbn [data_type point]. intros Hin.
    apply (bool_decide_eq_true_2 _) in Hin. discriminate Hin.
  - reflexivity.
Defined.

Lemma modal_directional_rotation_witness :
  ∃ o',
    objects (post (modal "Sun" mouse_move piloting_sun)) !! "Sun" = Some o' ∧
    rotation_quaternion o' = Ref "sun.rotation_quaternion".
Proof.
  destruct (modal_directional_rotation "Sun" mouse_move piloting_sun sun)
    as (o' & Ho & _ & _ & _ & He & _); [run|run|run| |].
  - cbn [data_type sun]. apply (bool_decide_eq_true_1 _). reflexivity.
  - exists o'. split; [exact Ho|].
    refine (proj1 (proj2 (He _))). cbn [rotation_mode sun]. constructor.
Defined.

Lemma modal_tags_ui_regions_witness :
  area_regions (post (modal "Sun" mouse_move piloting_sun)) !! 1 =
  Some (mkRegion "UI" true).
Proof.
  refine (proj2 (modal_tags_ui_regions "Sun" mouse_move piloting_sun sun
                   _ _ _ _ _) 1 (mkRegion "UI" false) _).
  - run.
  - run.
  - run.
  - intros _. right. constructor.
  - intros [H _]. discriminate H.
  - run.
Defined.

Lemma escape_tick_syncs_then_restores_witness :
  Some (view_distance
          (region_data (post (modal "Sun" esc_press piloting_sun)))) =
  Some (Num 10).
Proof.
  destruct (escape_tick_syncs_then_restores "Sun" piloting_sun sun)
    as (_ & _ & _ & _ & Hd & _); [run|run|run| | |exact Hd].
  - intros _. right. constructor.
  - unfold dict_full. conj; run.
Defined.

Lemma pilot_light_starts_session_witness :
  ∃ out, pilot_light alt_l idle = Some out ∧
         piloted_light (post out) = Some "Sun".
Proof.
  destruct (pilot_light_starts_session alt_l idle)
    as (name & o & out & Hc & _ & _ & Hout & _ & _ & _ & Hl & _); [run|].
  exists out. split; [exact Hout|]. rewrite Hl. f_equal.
  assert (Hs : context_object idle = Some "Sun") by reflexivity.
  rewrite Hs in Hc. by injection Hc.
Defined.

Lemma session_round_trip_witness :
  ∃ exited,
    exit_pilot
      (set_region_data (navigated "b")
         (post (modal "Sun" mouse_move
                  (set_region_data (navigated "a") piloting_sun)))) =
      Some exited ∧
    use_local_camera
      (space_data (post (modal "Sun" mouse_move (post exited)))) = true ∧
    camera (space_data (post (modal "Sun" mouse_move (post exited)))) =
      Some "Camera".
Proof.
  destruct (session_round_trip "Sun" alt_l mouse_move mouse_move
              (navigated "a") (navigated "b") idle sun)
    as (exited & Hex & _ & _ & Hu & Hc & _); [run|run| | |].
  - intros _. right. constructor.
  - intros [H _]. discriminate H.
  - exists exited. split; [exact Hex|]. split; [exact Hu|exact Hc].
Defined.

Lemma restart_then_stop_witness :
  view_location
    (region_data
       (post (cleanup (post (invoke "Point" alt_l piloting_sun))))) =
  vec 4 1 6.
Proof.
  destruct (restart_then_stop "Sun" "Point" alt_l alt_l idle sun point)
    as (_ & _ & _ & Hl & _); [run|run|exact Hl].
Defined.

Lemma session_inv_reachable_witness :
  (previous_view_state piloting_sun = dict_empty ∨
   dict_full (previous_view_state piloting_sun)) ∧
  (is_piloting piloting_sun = true →
     dict_full (previous_view_state piloting_sun) ∧
     is_Some (piloted_light piloting_sun) ∧
     is_Some (scene piloting_sun !! "lightpilot_active_light")).
Proof.
  refine (session_inv_reachable idle piloting_sun _ _ _).
  - reflexivity.
  - reflexivity.
  - apply rtc_once. apply step_invoke.
Defined.

Lemma draw_offers_available_commands_witness :
  ∃ layout,
    draw true sun_settings piloting_sun = Some layout ∧
    concat (map layout_operators layout) = ["light.exit_pilot"].
Proof.
  assert (Hd : ∃ layout, draw true sun_settings piloting_sun = Some layout)
    by (vm_compute; by eexists).
  destruct Hd as [layout Hd]. exists layout. split; [exact Hd|].
  rewrite (proj1 (draw_offers_available_commands _ _ _ _ Hd)). run.
Defined.

Lemma draw_rotation_readout_witness :
  ∃ layout,
    draw true sun_settings piloting_sun = Some layout ∧
    filter (λ p, p.1 = OwnerObject "Sun")
      (concat (map layout_props layout)) =
    [(OwnerObject "Sun", "location"); (OwnerObject "Sun", "rotation_euler")].
Proof.
  assert (Hd : ∃ layout, draw true sun_settings piloting_sun = Some layout)
    by (vm_compute; by eexists).
  destruct Hd as [layout Hd]. exists layout. split; [exact Hd|].
  rewrite (draw_rotation_readout true sun_settings piloting_sun "Sun" sun
             layout); [run|run|run|run|exact Hd].
Defined.

Lemma register_keymaps_binds_two_chords_witness :
  ∃ id1 id2 kc',
    keyconfigs_addon (register_keymaps registry0) = Some kc' ∧
    kc' !! ("3D View", "VIEW_3D") =
      Some [ mkKeyMapItem 7 "view3d.other_tool" "L" "PRESS" false false;
             mkKeyMapItem id1 "light.pilot" "L" "PRESS" true false;
             mkKeyMapItem id2 "light.exit_pilot" "L" "PRESS" true true ].
Proof.
  destruct (proj2 (register_keymaps_binds_two_chords registry0) _ eq_refl)
    as (id1 & id2 & kc' & Hkc & Hitems & _).
  exists id1, id2, kc'. split; [exact Hkc|]. rewrite Hitems. run.
Defined.

Lemma keymaps_round_trip_witness :
  ∃ r', unregister_keymaps (register_keymaps registry0) = Some r' ∧
        addon_keymaps r' = [].
Proof.
  destruct (keymaps_round_trip registry0) as (r' & Hun & Hrefs & _);
    [reflexivity|].
  exists r'. split; [exact Hun|exact Hrefs].
Defined.

Lemma register_unregister_round_trip_witness :
  ∃ r1 r2,
    register registry0 = Some r1 ∧
    unregister r1 piloting_sun =
      Some (r2, set_is_piloting false piloting_sun) ∧
    registered_classes r2 = ["OTHER_OT_tool"].
Proof.
  destruct (register_unregister_round_trip registry0 piloting_sun)
    as (r1 & r2 & Hr & _ & _ & Hu & Hc & _).
  - reflexivity.
  - intros c Hc Hin. cbn [registered_classes registry0] in Hin.
    apply list_elem_of_singleton in Hin. subst c.
    apply (bool_decide_eq_true_2 _) in Hc. discriminate Hc.
  - exists r1, r2. split; [exact Hr|]. split; [exact Hu|exact Hc].
Defined.

End Concrete.
